(** * honk: the click-to-move tile demo (honk.py)

    A shallow embedding of the parts of [honk.py] that hold the program's
    logic: the two index builders of [TiledRenderer] and the event loop of
    [SimpleTest.run] with its mouse-click handler.

    Python objects that the program mutates in place (the layers of the
    loaded map, the attributes of the application object) live in one
    explicit store, the record [SimpleTest]; a layer is referred to by its
    position in [layers], so that two names for the same layer see the same
    cells.  Exceptions are outcomes of a small state-and-exception monad:
    a raise keeps whatever was written to the store before it.

    What is left out: rendering ([render_map], [draw], the animations) and
    the clock, which write nothing that [run] reads back; and the division
    of lines 209-210 that turns the pointer position into a tile (it needs
    [conf.scale], which is not part of the file): a click carries the tile
    it computes.  The per-map set-up at the end of [SimpleTest.__init__]
    is modelled on its own, after the event loop; the map that [run]
    starts from is the map it leaves. *)

From stdpp Require Import gmap strings list fin_maps.
From Stdlib Require Import ZArith.

Local Open Scope string_scope.
Local Open Scope Z_scope.
Local Open Scope list_scope.

Set Warnings "-register-all".

(** ** The Python fragment the program relies on *)

(** The exceptions the modelled statements can raise. *)
Inductive exn : Type :=
  | ValueError   (* get_layer_by_name on an unknown name *)
  | IndexError   (* a sequence subscript out of range *)
  | TypeError    (* subscripting None, a subscript that is no integer *)
  | KeyError.    (* a dictionary subscript on a missing key *)

(** The values [self.selection] takes: Python is dynamically typed, so the
    attribute is modelled as a value and the handler's subscripts on it can
    fail. *)
Inductive value : Type :=
  | PyNone
  | PyInt (z : Z)
  | PyTuple (items : list value).

(** Truth value of an object in an [if]: [None] is false, an integer is
    true unless it is zero, a tuple is true unless it is empty. *)
Definition truthy (v : value) : bool :=
  match v with
  | PyNone => false
  | PyInt z => negb (z =? 0)
  | PyTuple items => match items with [] => false | _ => true end
  end.

(** Position of subscript [i] in a sequence of length [len]: negative
    subscripts count from the end, anything outside [-len, len) is an
    IndexError (here [None]). *)
Definition norm_index (len : nat) (i : Z) : option nat :=
  if decide (0 ≤ i) then
    if decide (i < Z.of_nat len) then Some (Z.to_nat i) else None
  else
    if decide (- Z.of_nat len ≤ i) then Some (Z.to_nat (Z.of_nat len + i))
    else None.

(** [seq[i]] for reading. *)
Definition py_index {A : Type} (l : list A) (i : Z) : option A :=
  k ← norm_index (length l) i; l !! k.

(** Outcome of a statement: it completes with a result or raises. *)
Inductive outcome (A : Type) : Type :=
  | Done (a : A)
  | Raised (e : exn).
Arguments Done {A} a.
Arguments Raised {A} e.

(** ** The loaded map (pytmx's TiledMap, as far as honk.py touches it) *)

(** The properties of a tile: a dictionary from property names to strings. *)
Abbreviation Props := (gmap string string).

(** A tile layer: its name and its rows of global tile ids; [data[y][x]]
    is the gid at column [x] of row [y], 0 for an empty cell.  pytmx keeps
    each row as an array of integers of its own, so rows share no cells and
    a cell holds nothing but an integer.  The two layers the program asks
    for by name are tile layers; other kinds of layers are not modelled. *)
Record TiledTileLayer : Type := {
  layer_name : string;
  data : list (list Z)
}.

(** [layers] in file order; [tile_properties] is the dictionary
    gid -> properties as the list of its items in iteration order (a
    dictionary has every gid once; nothing below needs that). *)
Record TiledMap : Type := {
  layers : list TiledTileLayer;
  tile_properties : list (Z * Props)
}.

(** pytmx registers every layer under its name as it is added, so a later
    layer replaces an earlier one of the same name in [layernames]. *)
Fixpoint add_layers (ls : list TiledTileLayer) (i : nat)
    (names : gmap string nat) : gmap string nat :=
  match ls with
  | [] => names
  | l :: ls' => add_layers ls' (S i) (<[layer_name l := i]> names)
  end.

Definition layernames (tm : TiledMap) : gmap string nat :=
  add_layers (layers tm) 0%nat ∅.

(** [tile_properties[gid]] as a dictionary lookup. *)
Fixpoint dict_get (d : list (Z * Props)) (gid : Z) : option Props :=
  match d with
  | [] => None
  | (g, props) :: d' => if decide (g = gid) then Some props else dict_get d' gid
  end.

(** pytmx's get_tile_properties_by_gid answers None for a gid without
    properties. *)
Definition get_tile_properties_by_gid (tm : TiledMap) (gid : Z) : option Props :=
  dict_get (tile_properties tm) gid.

(** ** TiledRenderer: the index builders *)

Module TiledRenderer.

(** One pass of the loop body of [build_character_index] (lines 89-102).
    The second membership test of the source asks for [team], not [name],
    in [characters[team]]. *)
Definition character_step
    (characters : gmap string (gmap string (gmap string Z)))
    (entry : Z * Props)
    : outcome (gmap string (gmap string (gmap string Z))) :=
  let '(gid, props) := entry in
  match props !! "team", props !! "character", props !! "mode" with
  | Some team, Some name, Some mode =>
      let characters1 :=
        match characters !! team with
        | None => <[team := ∅]> characters
        | Some _ => characters
        end in
      let of_team := default ∅ (characters1 !! team) in
      let of_team1 :=
        match of_team !! team with
        | None => <[name := ∅]> of_team
        | Some _ => of_team
        end in
      match of_team1 !! name with
      | None => Raised KeyError
      | Some modes =>
          Done (<[team := <[name := <[mode := gid]> modes]> of_team1]> characters1)
      end
  | _, _, _ => Done characters
  end.

Fixpoint character_loop
    (characters : gmap string (gmap string (gmap string Z)))
    (items : list (Z * Props))
    : outcome (gmap string (gmap string (gmap string Z))) :=
  match items with
  | [] => Done characters
  | entry :: rest =>
      match character_step characters entry with
      | Done characters' => character_loop characters' rest
      | Raised e => Raised e
      end
  end.

Definition build_character_index (tm : TiledMap)
    : outcome (gmap string (gmap string (gmap string Z))) :=
  character_loop ∅ (tile_properties tm).

(** The loop body of [build_spawn_index] (lines 107-110). *)
Definition spawn_step (spawns : gmap string Z) (entry : Z * Props)
    : gmap string Z :=
  match entry.2 !! "spawn" with
  | None => spawns
  | Some s => <[s := entry.1]> spawns
  end.

Definition build_spawn_index (tm : TiledMap) : gmap string Z :=
  foldl spawn_step ∅ (tile_properties tm).

End TiledRenderer.

(** ** SimpleTest: the application object and its event loop *)

(** The attributes of the application object that [run] reads or writes;
    [tmx_data] stands for [self.renderer.tmx_data]. *)
Record SimpleTest : Type := {
  tmx_data : TiledMap;
  running : bool;
  exit_status : Z;
  selection : value
}.

(** Statements over the application object. *)
Definition Act (A : Type) : Type := SimpleTest → SimpleTest * outcome A.

Definition ret {A : Type} (a : A) : Act A := λ st, (st, Done a).

Definition bind {A B : Type} (m : Act A) (k : A → Act B) : Act B :=
  λ st,
    match m st with
    | (st', Done a) => k a st'
    | (st', Raised e) => (st', Raised e)
    end.

Definition raise {A : Type} (e : exn) : Act A := λ st, (st, Raised e).

Notation "'do' x <- m ; k" := (bind m (λ x, k))
  (at level 10, x name, m at level 100, k at level 200,
   format "'[v' 'do'  x  <-  m ; '/' k ']'").
Notation "m ;;; k" := (bind m (λ _, k))
  (at level 100, k at level 200, right associativity).

(** An optional result, raising [e] when it is absent. *)
Definition try_opt {A : Type} (e : exn) (o : option A) : Act A :=
  match o with
  | Some a => ret a
  | None => raise e
  end.

Definition get {A : Type} (f : SimpleTest → A) : Act A := λ st, (st, Done (f st)).

Definition set_running (b : bool) : Act unit :=
  λ st, ({| tmx_data := tmx_data st; running := b;
            exit_status := exit_status st; selection := selection st |}, Done tt).

Definition set_exit_status (z : Z) : Act unit :=
  λ st, ({| tmx_data := tmx_data st; running := running st;
            exit_status := z; selection := selection st |}, Done tt).

Definition set_selection (v : value) : Act unit :=
  λ st, ({| tmx_data := tmx_data st; running := running st;
            exit_status := exit_status st; selection := v |}, Done tt).

Definition set_layers (ls : list TiledTileLayer) : Act unit :=
  λ st, ({| tmx_data := {| layers := ls;
                           tile_properties := tile_properties (tmx_data st) |};
            running := running st;
            exit_status := exit_status st; selection := selection st |}, Done tt).

(** [tmx_data.get_layer_by_name(name)]: a reference to the layer, here its
    position in [layers]; ValueError for an unknown name. *)
Definition get_layer_by_name (name : string) : Act nat :=
  do names <- get (λ st, layernames (tmx_data st));
  try_opt ValueError (names !! name).

(** The rows of the layer behind a reference, as they are now. *)
Definition layer_data (ref : nat) : Act (list (list Z)) :=
  do ls <- get (λ st, layers (tmx_data st));
  try_opt ValueError (data <$> ls !! ref).

(** [layer.data[y][x]] read. *)
Definition read_cell (ref : nat) (y x : Z) : Act Z :=
  do rows <- layer_data ref;
  do row <- try_opt IndexError (py_index rows y);
  try_opt IndexError (py_index row x).

(** A subscript has to be an integer. *)
Definition as_int (v : value) : Act Z :=
  match v with
  | PyInt z => ret z
  | _ => raise TypeError
  end.

(** [obj[i]] for a constant [i]: only a tuple can be subscripted. *)
Definition getitem (obj : value) (i : Z) : Act value :=
  match obj with
  | PyTuple items => try_opt IndexError (py_index items i)
  | _ => raise TypeError
  end.

(** [layer.data[y][x] = v] where [y], [x] and [v] are arbitrary objects,
    evaluated in Python's order: the row subscript, the column expression
    [colexpr], then the store, which needs an integer (the rows are arrays
    of integers). *)
Definition write_cell (ref : nat) (y : value) (colexpr : Act value) (v : value)
    : Act unit :=
  do rows <- layer_data ref;
  do yi <- as_int y;
  do r <- try_opt IndexError (norm_index (length rows) yi);
  do row <- try_opt IndexError (rows !! r);
  do x <- colexpr;
  do xi <- as_int x;
  do c <- try_opt IndexError (norm_index (length row) xi);
  do g <- as_int v;
  do ls <- get (λ st, layers (tmx_data st));
  do l <- try_opt ValueError (ls !! ref);
  set_layers (<[ref := {| layer_name := layer_name l;
                          data := <[r := <[c := g]> row]> rows |}]> ls).

(** Lines 212-213: the terrain of the World Layer tile under the pointer.
    It is looked up on every click, before the selection is consulted. *)
Definition clicked_terrain (x y : Z) : Act string :=
  do world <- get_layer_by_name "World Layer";
  do tile <- read_cell world y x;
  do props <- get (λ st, get_tile_properties_by_gid (tmx_data st) tile);
  do props <- try_opt TypeError props;
  try_opt KeyError (props !! "terrain").

(** Lines 222-224: the selected tile moves to column [x] of row [y]. *)
Definition move_selection (layer : nat) (x y : Z) : Act unit :=
  do sel <- get selection;
  do gid <- getitem sel 2;
  write_cell layer (PyInt y) (ret (PyInt x)) gid;;;
  do sel1 <- get selection;
  do sy <- getitem sel1 1;
  write_cell layer sy (do sel0 <- get selection; getitem sel0 0) (PyInt 0);;;
  set_selection PyNone.

(** Lines 214-227: the branches on the selection, the clicked cell of the
    sprite layer and the terrain. *)
Definition select_or_move (layer : nat) (terrain : string) (x y : Z) : Act unit :=
  do sel <- get selection;
  if truthy sel then
    do here <- read_cell layer y x;
    if decide (here ≠ 0) then ret tt                    (* Something already here. *)
    else if decide (terrain = "water") then ret tt      (* oh no is water *)
    else if decide (terrain = "mountains") then ret tt  (* oh no is mountain *)
    else move_selection layer x y
  else
    do here <- read_cell layer y x;
    if decide (here ≠ 0) then
      do gid <- read_cell layer y x;
      set_selection (PyTuple [PyInt x; PyInt y; PyInt gid])
    else ret tt.

(** The MOUSEBUTTONUP branch of [run] (lines 208-227) for a pointer over
    tile column [x] and row [y]; the two coordinates are what lines 209-210
    compute from the pointer position. *)
Definition on_mouse_button_up (x y : Z) : Act unit :=
  do layer <- get_layer_by_name "Sprite Layer";
  do terrain <- clicked_terrain x y;
  select_or_move layer terrain x y.

(** The events [run] tells apart. *)
Inductive Event : Type :=
  | QUIT
  | KEYDOWN (key : Z)
  | VIDEORESIZE (w h : Z)
  | MOUSEBUTTONUP (x y : Z)   (* with the tile under the pointer *)
  | OTHER.

Definition K_ESCAPE : Z := 27.

(** The body of the [for event in pygame.event.get()] loop (lines 194-227). *)
Definition handle_event (ev : Event) : Act unit :=
  match ev with
  | QUIT => set_exit_status 0;;; set_running false
  | KEYDOWN key =>
      if decide (key = K_ESCAPE) then set_exit_status 0;;; set_running false
      else ret tt
  | VIDEORESIZE _ _ => ret tt
  | MOUSEBUTTONUP x y => on_mouse_button_up x y
  | OTHER => ret tt
  end.

(** One [for] loop over the events of a frame: every event of the batch is
    handled, also those behind a QUIT. *)
Fixpoint handle_events (evs : list Event) : Act unit :=
  match evs with
  | [] => ret tt
  | ev :: rest => handle_event ev;;; handle_events rest
  end.

(** [self.draw(screen)] and [pygame.display.flip()] read the map and write
    to the display only. *)
Definition draw : Act unit := ret tt.

(** The [while self.running] loop over a script of frames, one batch of
    events per call of [pygame.event.get()].  The result says whether the
    loop was left ([true]) or the script ended with the loop still running
    ([false]). *)
Fixpoint main_loop (frames : list (list Event)) : Act bool :=
  λ st,
    if running st then
      match frames with
      | [] => (st, Done false)
      | evs :: rest => (handle_events evs;;; draw;;; main_loop rest) st
      end
    else (st, Done true).

(** [SimpleTest.run] (lines 188-233): the exit status it returns, or [None]
    when the script of frames is used up before the loop is left. *)
Definition run (frames : list (list Event)) : Act (option Z) :=
  set_running true;;;
  set_exit_status 1;;;
  do left <- main_loop frames;
  if left : bool then do status <- get exit_status; ret (Some status)
  else ret None.

(** The application object as [__init__] leaves it (lines 130-145): no
    selection; [tm] is the map after the per-map set-up. *)
Definition new_SimpleTest (tm : TiledMap) : SimpleTest :=
  {| tmx_data := tm; running := false; exit_status := 0; selection := PyNone |}.

(** ** Observations of the store used in the statements *)

(** [get_layer_by_name(name).data[y][x]], when it is there. *)
Definition layer_cell (tm : TiledMap) (name : string) (y x : Z) : option Z :=
  i ← layernames tm !! name;
  l ← layers tm !! i;
  row ← py_index (data l) y;
  py_index row x.

Definition sprite_cell (st : SimpleTest) (y x : Z) : option Z :=
  layer_cell (tmx_data st) "Sprite Layer" y x.

(** The "terrain" property of the World Layer tile at [(y, x)], when the
    tile has properties and they have that key. *)
Definition terrain_at (st : SimpleTest) (y x : Z) : option string :=
  tile ← layer_cell (tmx_data st) "World Layer" y x;
  props ← get_tile_properties_by_gid (tmx_data st) tile;
  props !! "terrain".

(** The place in [rows] that the subscripts [[y][x]] denote: row and
    column counted from 0, after Python's treatment of negative subscripts. *)
Definition position (rows : list (list Z)) (y x : Z) : option (nat * nat) :=
  r ← norm_index (length rows) y;
  row ← rows !! r;
  c ← norm_index (length row) x;
  Some (r, c).

Definition cell_at (rows : list (list Z)) (p : nat * nat) : option Z :=
  row ← rows !! p.1; row !! p.2.

(** [rows] with the cell at place [p] set to [g]. *)
Definition set_cell (rows : list (list Z)) (p : nat * nat) (g : Z) : list (list Z) :=
  match rows !! p.1 with
  | Some row => <[p.1 := <[p.2 := g]> row]> rows
  | None => rows
  end.

(** The selection is a triple of integers. *)
Definition triple (x y gid : Z) : value := PyTuple [PyInt x; PyInt y; PyInt gid].

(** The states of the application: the object as [__init__] leaves it,
    then the two assignments that open [run], and every event handled
    without an exception. *)
Inductive reachable : SimpleTest → Prop :=
  | reach_new tm : reachable (new_SimpleTest tm)
  | reach_run st :
      reachable st → reachable ((set_running true;;; set_exit_status 1) st).1
  | reach_event st ev st' :
      reachable st → handle_event ev st = (st', Done tt) → reachable st'.

(** The events that ask the loop to stop. *)
Definition is_quit (ev : Event) : bool :=
  match ev with
  | QUIT => true
  | KEYDOWN key => bool_decide (key = K_ESCAPE)
  | _ => false
  end.

(** ** Outcomes of the read-only statements, as functions of the store *)

Definition opt_outcome {A : Type} (e : exn) (o : option A) : outcome A :=
  match o with
  | Some a => Done a
  | None => Raised e
  end.

Definition read_cell_outcome (tm : TiledMap) (ref : nat) (y x : Z) : outcome Z :=
  match layers tm !! ref with
  | None => Raised ValueError
  | Some l =>
      match py_index (data l) y with
      | None => Raised IndexError
      | Some row => opt_outcome IndexError (py_index row x)
      end
  end.

Definition terrain_outcome (tm : TiledMap) (x y : Z) : outcome string :=
  match layernames tm !! "World Layer" with
  | None => Raised ValueError
  | Some world =>
      match read_cell_outcome tm world y x with
      | Raised e => Raised e
      | Done tile =>
          match get_tile_properties_by_gid tm tile with
          | None => Raised TypeError
          | Some props => opt_outcome KeyError (props !! "terrain")
          end
      end
  end.

(** ** Predicates of the statements below *)

(** [m] never changes the observation [f] of the store, whether it
    completes or raises. *)
Definition unchanged {A B : Type} (f : SimpleTest → B) (m : Act A) : Prop :=
  ∀ st, f (m st).1 = f st.

(** The two shapes of the selection. *)
Definition selection_shape (v : value) : Prop :=
  v = PyNone ∨ ∃ x y gid, v = triple x y gid.

(** The tile id of a selected triple is not zero. *)
Definition selected_gid_nonzero (v : value) : Prop :=
  ∀ x y gid, v = triple x y gid → gid ≠ 0.

(** The store after the selected tile has moved from place [q] to place
    [p] of the layer [l] at position [ref]. *)
Definition after_move (st : SimpleTest) (ref : nat) (l : TiledTileLayer)
    (p q : nat * nat) (gid : Z) : SimpleTest :=
  {| tmx_data :=
       {| layers :=
            <[ref := {| layer_name := layer_name l;
                        data := set_cell (set_cell (data l) p gid) q 0 |}]>
              (layers (tmx_data st));
          tile_properties := tile_properties (tmx_data st) |};
     running := running st;
     exit_status := exit_status st;
     selection := PyNone |}.

(** A selected triple names a cell of the sprite layer, and that cell holds
    the triple's tile id, which is not zero. *)
Definition selection_inv (st : SimpleTest) : Prop :=
  selection st = PyNone
  ∨ ∃ x y gid, selection st = triple x y gid ∧ gid ≠ 0
               ∧ sprite_cell st y x = Some gid.

(** ** A small map for the examples *)

Definition grass : Props := {[ "terrain" := "grass" ]}.
Definition water : Props := {[ "terrain" := "water" ]}.

(** Two rows of three tiles: water at column 1 of row 0, a tile without
    properties (gid 3) at column 2 of row 1; sprites 5 and 7. *)
Definition demo_map : TiledMap :=
  {| layers :=
       [ {| layer_name := "World Layer"; data := [[1; 2; 1]; [1; 1; 3]] |};
         {| layer_name := "Sprite Layer"; data := [[5; 0; 0]; [0; 7; 0]] |} ];
     tile_properties := [(1, grass); (2, water)] |}.

(** The application after a click on the sprite at column 0 of row 0. *)
Definition demo_selected : SimpleTest :=
  (handle_event (MOUSEBUTTONUP 0 0) (new_SimpleTest demo_map)).1.

(** The same while [run] is under way. *)
Definition demo_selected_running : SimpleTest :=
  (run [[MOUSEBUTTONUP 0 0]] (new_SimpleTest demo_map)).1.

(** [characters[team][name][mode]], when all three keys are there. *)
Definition character_gid (characters : gmap string (gmap string (gmap string Z)))
    (team name mode : string) : option Z :=
  of_team ← characters !! team;
  modes ← of_team !! name;
  modes !! mode.

(** One character of team "red" with two modes, on tiles 1 and 2. *)
Definition two_modes : TiledMap :=
  {| layers := [];
     tile_properties :=
       [ (1, {[ "team" := "red"; "character" := "dude"; "mode" := "idle" ]});
         (2, {[ "team" := "red"; "character" := "dude"; "mode" := "walk" ]}) ] |}.

(** A character that is named like its team, then a second character. *)
Definition named_like_team : TiledMap :=
  {| layers := [];
     tile_properties :=
       [ (1, {[ "team" := "red"; "character" := "red"; "mode" := "idle" ]});
         (2, {[ "team" := "red"; "character" := "dude"; "mode" := "idle" ]}) ] |}.

(** The loop has been told to stop with exit status 0. *)
Definition stopped (st : SimpleTest) : Prop :=
  running st = false ∧ exit_status st = 0.

(** ** Predicates of the further properties *)

(** Every store that [m] ends in, completing or raising, is [R]-related to
    the store it started from. *)
Definition related {A : Type} (R : SimpleTest → SimpleTest → Prop)
    (m : Act A) : Prop :=
  ∀ st, R st (m st).1.

(** [tm'] is [tm] but for the rows of the layer at position [ref]. *)
Definition layer_rewritten (ref : nat) (tm tm' : TiledMap) : Prop :=
  tile_properties tm' = tile_properties tm
  ∧ layer_name <$> layers tm' = layer_name <$> layers tm
  ∧ ∀ j, j ≠ ref → layers tm' !! j = layers tm !! j.

(** The World Layer, the tile properties and the names of the layers are
    in [st'] what they are in [st]. *)
Definition same_world (st st' : SimpleTest) : Prop :=
  layernames (tmx_data st') = layernames (tmx_data st)
  ∧ tile_properties (tmx_data st') = tile_properties (tmx_data st)
  ∧ ∀ y x, layer_cell (tmx_data st') "World Layer" y x
           = layer_cell (tmx_data st) "World Layer" y x.

(** How often the gid [v] occurs in the cells of [rows]. *)
Definition occurrences (v : Z) (rows : list (list Z)) : nat :=
  length (filter (λ c, c = v) (concat rows)).

(** [l'] has the name and the row lengths of [l], and every gid as often
    as [l] has it. *)
Definition rearranged_layer (l l' : TiledTileLayer) : Prop :=
  layer_name l' = layer_name l
  ∧ length <$> data l' = length <$> data l
  ∧ ∀ v, occurrences v (data l') = occurrences v (data l).

(** The layers of [tm'] are those of [tm] with their cells rearranged. *)
Definition rearranged (tm tm' : TiledMap) : Prop :=
  tile_properties tm' = tile_properties tm
  ∧ Forall2 rearranged_layer (layers tm) (layers tm').

(** The mode and the gid of the last tile in [items] that has all three
    of "team", "character" and "mode" and belongs to character [name] of
    [team]. *)
Fixpoint last_tile_of (items : list (Z * Props)) (team name : string)
    : option (string * Z) :=
  match items with
  | [] => None
  | (gid, props) :: rest =>
      match last_tile_of rest team name with
      | Some found => Some found
      | None =>
          match props !! "team", props !! "character", props !! "mode" with
          | Some t, Some n, Some m =>
              if decide (t = team ∧ n = name) then Some (m, gid) else None
          | _, _, _ => None
          end
      end
  end.

(** No dictionary of a team has the team's own name as a key. *)
Definition no_team_key (characters : gmap string (gmap string (gmap string Z)))
    : Prop :=
  ∀ team of_team, characters !! team = Some of_team → of_team !! team = None.

(** ** SimpleTest.__init__: the per-map set-up (lines 138-145) *)

(** [self.renderer.characters[color][name][mode]] (lines 142-143): each of
    the three subscripts raises KeyError on a missing key. *)
Definition character_of (characters : gmap string (gmap string (gmap string Z)))
    (color name mode : string) : Act Z :=
  do of_team <- try_opt KeyError (characters !! color);
  do modes <- try_opt KeyError (of_team !! name);
  try_opt KeyError (modes !! mode).

(** [layers[tile[2]].data[tile[1]][tile[0]] = gid] for a location
    [tile = (x, y, layer)] as pytmx's get_tile_locations_by_gid gives it. *)
Definition put_tile (tile : Z * Z * Z) (gid : Z) : Act unit :=
  let '(x, y, layer) := tile in
  do ls <- get (λ st, layers (tmx_data st));
  do ref <- try_opt IndexError (norm_index (length ls) layer);
  write_cell ref (PyInt y) (ret (PyInt x)) (PyInt gid).

(** Lines 144-145: the loop over [tiles[2:]]. *)
Fixpoint clear_tiles (tiles : list (Z * Z * Z)) : Act unit :=
  match tiles with
  | [] => ret tt
  | tile :: rest => put_tile tile 0;;; clear_tiles rest
  end.

(** Lines 140-145, the body of the loop over the spawn index for one
    [color]; [tiles] is the list of the locations of the color's spawn gid
    after [random.shuffle]. *)
Definition place_characters
    (characters : gmap string (gmap string (gmap string Z)))
    (color : string) (tiles : list (Z * Z * Z)) : Act unit :=
  match tiles with
  | [] => ret tt
  | _ =>
      do dudess <- character_of characters color "dudess" "idle";
      do first <- try_opt IndexError (py_index tiles 0);
      put_tile first dudess;;;
      do dude <- character_of characters color "dude" "idle";
      do second <- try_opt IndexError (py_index tiles 1);
      put_tile second dude;;;
      clear_tiles (drop 2 tiles)
  end.

(** Lines 138-145: the loop; every item of the spawn index comes with the
    shuffled locations that line 139 and line 141 give for it. *)
Fixpoint set_up (characters : gmap string (gmap string (gmap string Z)))
    (spawns : list (string * list (Z * Z * Z))) : Act unit :=
  match spawns with
  | [] => ret tt
  | (color, tiles) :: rest =>
      place_characters characters color tiles;;; set_up characters rest
  end.

(** The layer, row and column that a location denotes in [tm]. *)
Definition tile_place (tm : TiledMap) (tile : Z * Z * Z)
    : option (nat * (nat * nat)) :=
  let '(x, y, layer) := tile in
  ref ← norm_index (length (layers tm)) layer;
  l ← layers tm !! ref;
  p ← position (data l) y x;
  Some (ref, p).

(** The gid at a place of [tm]. *)
Definition place_cell (tm : TiledMap) (place : nat * (nat * nat)) : option Z :=
  l ← layers tm !! place.1; cell_at (data l) place.2.

(** [tm] with the gid [g] at a place. *)
Definition put_place (tm : TiledMap) (place : nat * (nat * nat)) (g : Z)
    : TiledMap :=
  match layers tm !! place.1 with
  | Some l =>
      {| layers := <[place.1 := {| layer_name := layer_name l;
                                   data := set_cell (data l) place.2 g |}]>
                     (layers tm);
         tile_properties := tile_properties tm |}
  | None => tm
  end.

(** The application object with another map. *)
Definition with_map (st : SimpleTest) (tm : TiledMap) : SimpleTest :=
  {| tmx_data := tm; running := running st;
     exit_status := exit_status st; selection := selection st |}.

(** A map with a layer of spawn markers (gid 8) and the index of a team
    whose two characters have an "idle" tile each. *)
Definition spawn_map : TiledMap :=
  {| layers := [ {| layer_name := "Sprite Layer";
                    data := [[8; 0; 8]; [0; 8; 0]] |} ];
     tile_properties := [] |}.

Definition red_team : gmap string (gmap string (gmap string Z)) :=
  {[ "red" := {[ "dudess" := {[ "idle" := 5 ]}; "dude" := {[ "idle" := 7 ]} ]} ]}.

(** A team whose "dudess" has a "walk" tile after her "idle" tile. *)
Definition idle_then_walk : TiledMap :=
  {| layers := [];
     tile_properties :=
       [ (5, {[ "team" := "red"; "character" := "dudess"; "mode" := "idle" ]});
         (6, {[ "team" := "red"; "character" := "dudess"; "mode" := "walk" ]});
         (7, {[ "team" := "red"; "character" := "dude"; "mode" := "idle" ]}) ] |}.

(** * Properties *)

(** ** Running statements *)

Lemma bind_eq {A B : Type} (m : Act A) (k : A → Act B) st :
  bind m k st =
  match m st with
  | (st', Done a) => k a st'
  | (st', Raised e) => (st', Raised e)
  end.
Proof. reflexivity. Qed.

Lemma try_opt_run {A : Type} e (o : option A) st :
  try_opt e o st = (st, opt_outcome e o).
Proof. by destruct o. Qed.

Lemma get_run {A : Type} (f : SimpleTest → A) st : get f st = (st, Done (f st)).
Proof. reflexivity. Qed.

Lemma ret_run {A : Type} (a : A) st : ret a st = (st, Done a).
Proof. reflexivity. Qed.

Lemma get_layer_by_name_run name st :
  get_layer_by_name name st
  = (st, opt_outcome ValueError (layernames (tmx_data st) !! name)).
Proof. unfold get_layer_by_name. rewrite bind_eq, get_run. apply try_opt_run. Qed.

Lemma read_cell_run ref y x st :
  read_cell ref y x st = (st, read_cell_outcome (tmx_data st) ref y x).
Proof.
  unfold read_cell, layer_data, read_cell_outcome, bind, get, try_opt.
  destruct (layers (tmx_data st) !! ref) as [l|]; simpl; [|done].
  destruct (py_index (data l) y) as [row|]; simpl; [|done].
  by destruct (py_index row x).
Qed.

Lemma clicked_terrain_run x y st :
  clicked_terrain x y st = (st, terrain_outcome (tmx_data st) x y).
Proof.
  unfold clicked_terrain, terrain_outcome.
  rewrite bind_eq, get_layer_by_name_run.
  destruct (layernames (tmx_data st) !! "World Layer") as [w|]; simpl; [|done].
  rewrite bind_eq, read_cell_run.
  destruct (read_cell_outcome (tmx_data st) w y x) as [tile|e]; [|done].
  rewrite bind_eq, get_run, bind_eq, try_opt_run.
  destruct (get_tile_properties_by_gid (tmx_data st) tile) as [props|]; simpl; [|done].
  apply try_opt_run.
Qed.

(** The outcome functions against the observations. *)
Lemma read_cell_outcome_Done tm name ref y x c :
  layernames tm !! name = Some ref →
  read_cell_outcome tm ref y x = Done c ↔ layer_cell tm name y x = Some c.
Proof.
  intros Hn. unfold read_cell_outcome, layer_cell. rewrite Hn. simpl.
  destruct (layers tm !! ref) as [l|]; simpl; [|done].
  destruct (py_index (data l) y) as [row|]; simpl; [|done].
  destruct (py_index row x); simpl; naive_solver.
Qed.

Lemma terrain_outcome_Done tm st x y t :
  tm = tmx_data st →
  terrain_outcome tm x y = Done t ↔ terrain_at st y x = Some t.
Proof.
  intros ->. unfold terrain_outcome, terrain_at.
  destruct (layernames (tmx_data st) !! "World Layer") as [w|] eqn:Hw.
  - destruct (read_cell_outcome (tmx_data st) w y x) as [tile|e] eqn:Hr.
    + apply (read_cell_outcome_Done _ "World Layer") in Hr; [|done].
      rewrite Hr. simpl.
      destruct (get_tile_properties_by_gid (tmx_data st) tile) as [props|];
        simpl; [|done].
      destruct (props !! "terrain"); simpl; naive_solver.
    + destruct (layer_cell (tmx_data st) "World Layer" y x) as [c|] eqn:Hl; [|done].
      apply (read_cell_outcome_Done _ "World Layer" w) in Hl; [|done].
      congruence.
  - unfold layer_cell. rewrite Hw. done.
Qed.

Lemma on_mouse_button_up_eq x y st :
  on_mouse_button_up x y st =
  match layernames (tmx_data st) !! "Sprite Layer" with
  | None => (st, Raised ValueError)
  | Some layer =>
      match terrain_outcome (tmx_data st) x y with
      | Raised e => (st, Raised e)
      | Done terrain => select_or_move layer terrain x y st
      end
  end.
Proof.
  unfold on_mouse_button_up. rewrite bind_eq, get_layer_by_name_run.
  destruct (layernames (tmx_data st) !! "Sprite Layer") as [layer|]; simpl; [|done].
  rewrite bind_eq, clicked_terrain_run.
  by destruct (terrain_outcome (tmx_data st) x y).
Qed.

Lemma select_or_move_eq layer terrain x y st :
  select_or_move layer terrain x y st =
  match read_cell_outcome (tmx_data st) layer y x with
  | Raised e => (st, Raised e)
  | Done here =>
      if truthy (selection st) then
        if decide (here ≠ 0) then (st, Done tt)
        else if decide (terrain = "water") then (st, Done tt)
        else if decide (terrain = "mountains") then (st, Done tt)
        else move_selection layer x y st
      else
        if decide (here ≠ 0) then set_selection (triple x y here) st
        else (st, Done tt)
  end.
Proof.
  unfold select_or_move. rewrite bind_eq, get_run.
  destruct (truthy (selection st)); rewrite bind_eq, read_cell_run;
    destruct (read_cell_outcome (tmx_data st) layer y x) as [here|e] eqn:Hr;
    try done; repeat case_decide; try done.
  by rewrite bind_eq, read_cell_run, Hr.
Qed.

(** ** What a statement leaves alone *)

Section unchanged.
Context {B : Type} (f : SimpleTest → B).

Lemma unchanged_bind {A C : Type} (m : Act A) (k : A → Act C) :
  unchanged f m → (∀ a, unchanged f (k a)) → unchanged f (bind m k).
Proof.
  intros Hm Hk st. rewrite bind_eq. specialize (Hm st).
  destruct (m st) as [st' [a|e]]; simpl in *; [|done].
  by rewrite Hk.
Qed.

Lemma unchanged_ret {A : Type} (a : A) : unchanged f (ret a).
Proof. done. Qed.

Lemma unchanged_raise {A : Type} e : unchanged f (@raise A e).
Proof. done. Qed.

Lemma unchanged_get {A : Type} (g : SimpleTest → A) : unchanged f (get g).
Proof. done. Qed.

Lemma unchanged_try_opt {A : Type} e (o : option A) : unchanged f (try_opt e o).
Proof. by destruct o. Qed.

Lemma unchanged_as_int v : unchanged f (as_int v).
Proof. by destruct v. Qed.

Lemma unchanged_getitem v i : unchanged f (getitem v i).
Proof. destruct v; try done. apply unchanged_try_opt. Qed.

Lemma unchanged_get_layer_by_name name : unchanged f (get_layer_by_name name).
Proof. intros st. by rewrite get_layer_by_name_run. Qed.

Lemma unchanged_read_cell ref y x : unchanged f (read_cell ref y x).
Proof. intros st. by rewrite read_cell_run. Qed.

Lemma unchanged_clicked_terrain x y : unchanged f (clicked_terrain x y).
Proof. intros st. by rewrite clicked_terrain_run. Qed.

(** Statements that write: [f] has to be blind to what they write. *)
Hypothesis f_layers : ∀ ls st, f (set_layers ls st).1 = f st.

Lemma unchanged_write_cell ref y col v :
  unchanged f col → unchanged f (write_cell ref y col v).
Proof.
  intros Hcol. unfold write_cell, layer_data.
  repeat lazymatch goal with
  | |- unchanged _ (bind _ _) => apply unchanged_bind; [|intros ?]
  | |- unchanged _ (get _) => apply unchanged_get
  | |- unchanged _ (try_opt _ _) => apply unchanged_try_opt
  | |- unchanged _ (as_int _) => apply unchanged_as_int
  | |- unchanged _ col => exact Hcol
  | |- unchanged _ (set_layers _) => intros st; apply f_layers
  end.
Qed.

Hypothesis f_selection : ∀ v st, f (set_selection v st).1 = f st.

Lemma unchanged_move_selection layer x y : unchanged f (move_selection layer x y).
Proof.
  unfold move_selection.
  repeat lazymatch goal with
  | |- unchanged _ (bind _ _) => apply unchanged_bind; [|intros ?]
  | |- unchanged _ (get _) => apply unchanged_get
  | |- unchanged _ (ret _) => apply unchanged_ret
  | |- unchanged _ (getitem _ _) => apply unchanged_getitem
  | |- unchanged _ (write_cell _ _ _ _) => apply unchanged_write_cell
  | |- unchanged _ (set_selection _) => intros st; apply f_selection
  end.
Qed.

Lemma unchanged_on_mouse_button_up x y : unchanged f (on_mouse_button_up x y).
Proof.
  intros st. rewrite on_mouse_button_up_eq.
  destruct (layernames (tmx_data st) !! "Sprite Layer") as [layer|]; [|done].
  destruct (terrain_outcome (tmx_data st) x y) as [terrain|e]; [|done].
  rewrite select_or_move_eq.
  destruct (read_cell_outcome (tmx_data st) layer y x) as [here|e]; [|done].
  destruct (truthy (selection st)); repeat case_decide; try done.
  apply unchanged_move_selection.
Qed.
End unchanged.

(** ** The selection across an event *)

Lemma bind_selection_or_none {A B : Type} (m : Act A) (k : A → Act B) :
  unchanged selection m →
  (∀ a st, selection (k a st).1 = selection st ∨ selection (k a st).1 = PyNone) →
  ∀ st, selection (bind m k st).1 = selection st
        ∨ selection (bind m k st).1 = PyNone.
Proof.
  intros Hm Hk st. rewrite bind_eq. specialize (Hm st).
  destruct (m st) as [st' [a|e]]; simpl in *; [|by left].
  rewrite <- Hm. apply Hk.
Qed.

(** A move leaves the selection as it was (when it raises half-way) or
    clears it. *)
Lemma move_selection_selection layer x y st :
  selection (move_selection layer x y st).1 = selection st
  ∨ selection (move_selection layer x y st).1 = PyNone.
Proof.
  revert st. unfold move_selection.
  repeat lazymatch goal with
  | |- ∀ st, _ ∨ selection (bind _ _ st).1 = _ =>
      apply bind_selection_or_none; [|intros ?]
  | |- unchanged _ (get _) => apply unchanged_get
  | |- unchanged _ (getitem _ _) => apply unchanged_getitem
  | |- unchanged _ (write_cell _ _ _ _) =>
      apply unchanged_write_cell; [done|]
  | |- unchanged _ (ret _) => apply unchanged_ret
  | |- unchanged _ (bind _ _) => apply unchanged_bind; [|intros ?]
  end.
  intros st. by right.
Qed.

Section selection_invariant.
(** A property of the selection that holds of [None] and of every triple
    with a nonzero tile id. *)
Variable P : value → Prop.
Hypothesis P_none : P PyNone.
Hypothesis P_triple : ∀ x y c, c ≠ 0 → P (triple x y c).

Lemma on_mouse_button_up_selection x y st :
  P (selection st) → P (selection (on_mouse_button_up x y st).1).
Proof.
  intros HP. rewrite on_mouse_button_up_eq.
  destruct (layernames (tmx_data st) !! "Sprite Layer") as [layer|]; [|done].
  destruct (terrain_outcome (tmx_data st) x y) as [terrain|e]; [|done].
  rewrite select_or_move_eq.
  destruct (read_cell_outcome (tmx_data st) layer y x) as [here|e]; [|done].
  destruct (truthy (selection st)); repeat case_decide; try done.
  - by destruct (move_selection_selection layer x y st) as [-> | ->].
  - by apply P_triple.
Qed.

Lemma handle_event_selection ev st :
  P (selection st) → P (selection (handle_event ev st).1).
Proof.
  intros HP. destruct ev as [|key| | |]; simpl; try done.
  - by case_decide.
  - by apply on_mouse_button_up_selection.
Qed.

Lemma handle_events_selection evs st :
  P (selection st) → P (selection (handle_events evs st).1).
Proof.
  revert st. induction evs as [|ev evs IH]; intros st HP; [done|].
  simpl. rewrite bind_eq.
  pose proof (handle_event_selection ev st HP) as Hev.
  destruct (handle_event ev st) as [st' [[]|e]]; simpl in *; [|done].
  by apply IH.
Qed.

Lemma main_loop_selection frames st :
  P (selection st) → P (selection (main_loop frames st).1).
Proof.
  revert st. induction frames as [|evs rest IH]; intros st HP; simpl;
    destruct (running st); try done.
  rewrite bind_eq. pose proof (handle_events_selection evs st HP) as Hevs.
  destruct (handle_events evs st) as [st' [[]|e]]; simpl in *; [|done].
  rewrite bind_eq. unfold draw at 1. rewrite ret_run. by apply IH.
Qed.

Lemma run_selection frames st :
  P (selection st) → P (selection (run frames st).1).
Proof.
  intros HP. unfold run.
  rewrite bind_eq. cbn [set_running]. rewrite bind_eq. cbn [set_exit_status].
  set (st0 := {| tmx_data := _ |}).
  pose proof (main_loop_selection frames st0 HP) as Hloop.
  rewrite bind_eq.
  destruct (main_loop frames st0) as [st' [[]|e]]; simpl in *; done.
Qed.

Lemma reachable_selection st : reachable st → P (selection st).
Proof.
  induction 1 as [tm|st _ IH|st ev st' _ IH Hev]; [done..|].
  pose proof (handle_event_selection ev st IH) as HP.
  by rewrite Hev in HP.
Qed.
End selection_invariant.

(** ** Layer names *)

Lemma add_layers_lookup ls i (m : gmap string nat) n k :
  add_layers ls i m !! n = Some k →
  m !! n = Some k
  ∨ ∃ l, (i ≤ k)%nat ∧ ls !! (k - i)%nat = Some l ∧ layer_name l = n.
Proof.
  revert i m. induction ls as [|l ls IH]; intros i m Hk; simpl in Hk; [by left|].
  apply IH in Hk as [Hk|(l' & Hle & Hl' & Hn)].
  - destruct (decide (layer_name l = n)) as [<-|Hne].
    + rewrite lookup_insert_eq in Hk. simplify_eq. right. exists l.
      by rewrite Nat.sub_diag.
    + rewrite lookup_insert_ne in Hk by done. by left.
  - right. exists l'. split; [lia|]. split; [|done].
    replace (k - i)%nat with (S (k - S i)) by lia. done.
Qed.

Lemma layernames_lookup tm n k :
  layernames tm !! n = Some k →
  ∃ l, layers tm !! k = Some l ∧ layer_name l = n.
Proof.
  intros Hk. apply add_layers_lookup in Hk as [Hk|(l & _ & Hl & Hn)]; [done|].
  rewrite Nat.sub_0_r in Hl. eauto.
Qed.

Lemma add_layers_ext ls ls' i (m : gmap string nat) :
  layer_name <$> ls = layer_name <$> ls' → add_layers ls i m = add_layers ls' i m.
Proof.
  revert ls' i m. induction ls as [|l ls IH]; intros [|l' ls'] i m Heq;
    simplify_eq/=; [done|].
  rewrite H. by apply IH.
Qed.

(** Replacing a layer by one of the same name leaves [layernames] as it
    was. *)
Lemma layernames_insert ls props ref l l' :
  ls !! ref = Some l → layer_name l' = layer_name l →
  layernames {| layers := <[ref := l']> ls; tile_properties := props |}
  = layernames {| layers := ls; tile_properties := props |}.
Proof.
  intros Hl Hn. unfold layernames. simpl. apply add_layers_ext.
  rewrite list_fmap_insert, Hn. apply list_insert_id.
  by rewrite list_lookup_fmap, Hl.
Qed.

(** ** Cells *)

Lemma norm_index_lt len i k : norm_index len i = Some k → (k < len)%nat.
Proof. unfold norm_index. intros. repeat case_decide; simplify_eq; lia. Qed.

Lemma layer_cell_position tm name y x :
  layer_cell tm name y x
  = (ref ← layernames tm !! name; l ← layers tm !! ref;
     p ← position (data l) y x; cell_at (data l) p).
Proof.
  unfold layer_cell, position, cell_at, py_index.
  destruct (layernames tm !! name) as [ref|]; simpl; [|done].
  destruct (layers tm !! ref) as [l|]; simpl; [|done].
  destruct (norm_index (length (data l)) y) as [r|]; simpl; [|done].
  destruct (data l !! r) as [row|] eqn:Hrow; simpl; [|done].
  destruct (norm_index (length row) x) as [c|]; simpl; [|done].
  by rewrite Hrow.
Qed.

Lemma position_cell rows y x p :
  position rows y x = Some p → is_Some (cell_at rows p).
Proof.
  unfold position, cell_at. intros Hp.
  destruct (norm_index (length rows) y) as [r|]; simplify_eq/=.
  destruct (rows !! r) as [row|] eqn:Hrow; simplify_eq/=.
  destruct (norm_index (length row) x) as [c|] eqn:Hc; simplify_eq/=.
  rewrite Hrow. simpl. apply lookup_lt_is_Some. by eapply norm_index_lt.
Qed.

Lemma cell_at_set_cell rows p g q :
  is_Some (cell_at rows p) →
  cell_at (set_cell rows p g) q = if decide (q = p) then Some g else cell_at rows q.
Proof.
  destruct p as [r c], q as [r' c']. unfold cell_at, set_cell. simpl.
  intros [v Hv]. destruct (rows !! r) as [row|] eqn:Hrow; simplify_eq/=.
  pose proof (lookup_lt_Some _ _ _ Hrow) as Hr.
  pose proof (lookup_lt_Some _ _ _ Hv) as Hc.
  destruct (decide (r' = r)) as [->|Hne].
  - rewrite list_lookup_insert_eq by done. simpl.
    destruct (decide (c' = c)) as [->|Hnc].
    + rewrite list_lookup_insert_eq by done. by rewrite decide_True.
    + rewrite list_lookup_insert_ne by done.
      rewrite decide_False by congruence. by rewrite Hrow.
  - rewrite list_lookup_insert_ne by done.
    by rewrite decide_False by congruence.
Qed.

Lemma position_set_cell rows p g y x :
  position (set_cell rows p g) y x = position rows y x.
Proof.
  destruct p as [r c]. unfold position, set_cell. simpl.
  destruct (rows !! r) as [row|] eqn:Hrow; [|done].
  rewrite length_insert.
  destruct (norm_index (length rows) y) as [r'|]; simpl; [|done].
  destruct (decide (r' = r)) as [->|Hne].
  - rewrite list_lookup_insert_eq by by eapply lookup_lt_Some.
    rewrite Hrow. simpl. by rewrite length_insert.
  - by rewrite list_lookup_insert_ne.
Qed.

(** ** Writing a cell *)

Lemma write_cell_run st ref l y x g p (col : Act value) :
  layers (tmx_data st) !! ref = Some l →
  col st = (st, Done (PyInt x)) →
  position (data l) y x = Some p →
  write_cell ref (PyInt y) col (PyInt g) st
  = set_layers (<[ref := {| layer_name := layer_name l;
                            data := set_cell (data l) p g |}]>
                  (layers (tmx_data st))) st.
Proof.
  intros Hl Hcol Hp. unfold position in Hp.
  destruct (norm_index (length (data l)) y) as [r|] eqn:Hr; simplify_eq/=.
  destruct (data l !! r) as [row|] eqn:Hrow; simplify_eq/=.
  destruct (norm_index (length row) x) as [c|] eqn:Hc; simplify_eq/=.
  unfold write_cell, layer_data, set_cell. simpl.
  rewrite bind_eq, bind_eq, get_run, try_opt_run, Hl. simpl.
  rewrite bind_eq, ret_run, bind_eq, try_opt_run, Hr. simpl.
  rewrite bind_eq, try_opt_run, Hrow. simpl.
  rewrite bind_eq, Hcol. simpl.
  rewrite bind_eq, ret_run, bind_eq, try_opt_run, Hc. simpl.
  rewrite bind_eq, ret_run, bind_eq, get_run, bind_eq, try_opt_run, Hl. simpl.
  done.
Qed.

Lemma getitem_triple x y gid st :
  getitem (triple x y gid) 0 st = (st, Done (PyInt x))
  ∧ getitem (triple x y gid) 1 st = (st, Done (PyInt y))
  ∧ getitem (triple x y gid) 2 st = (st, Done (PyInt gid)).
Proof. done. Qed.

Lemma move_selection_run st ref l x y sx sy gid p q :
  selection st = triple sx sy gid →
  layers (tmx_data st) !! ref = Some l →
  position (data l) y x = Some p →
  position (data l) sy sx = Some q →
  move_selection ref x y st = (after_move st ref l p q gid, Done tt).
Proof.
  intros Hsel Hl Hp Hq. unfold move_selection.
  destruct (getitem_triple sx sy gid st) as (Hg0 & Hg1 & Hg2).
  rewrite bind_eq, get_run, Hsel, bind_eq, Hg2.
  rewrite bind_eq, (write_cell_run st ref l y x gid p) by done.
  unfold set_layers at 1.
  set (l1 := {| layer_name := layer_name l; data := set_cell (data l) p gid |}).
  set (st1 := {| tmx_data := _ |}).
  assert (layers (tmx_data st1) !! ref = Some l1) as Hl1.
  { simpl. apply list_lookup_insert_eq. by eapply lookup_lt_Some. }
  assert (selection st1 = triple sx sy gid) as Hsel1 by done.
  destruct (getitem_triple sx sy gid st1) as (Hh0 & Hh1 & Hh2).
  rewrite bind_eq, get_run, Hsel1, bind_eq, Hh1.
  rewrite bind_eq, (write_cell_run st1 ref l1 sy sx 0 q); first last.
  { simpl. by rewrite position_set_cell. }
  { by rewrite bind_eq, get_run, Hsel1. }
  { done. }
  unfold set_layers, set_selection, after_move. simpl.
  by rewrite list_insert_insert_eq.
Qed.

(** ** The selected cell *)

Lemma layer_cell_Some tm name y x c :
  layer_cell tm name y x = Some c →
  ∃ ref l p, layernames tm !! name = Some ref ∧ layers tm !! ref = Some l
             ∧ position (data l) y x = Some p ∧ cell_at (data l) p = Some c.
Proof.
  rewrite layer_cell_position. intros Hc.
  destruct (layernames tm !! name) as [ref|] eqn:Hn; simplify_eq/=.
  destruct (layers tm !! ref) as [l|] eqn:Hl; simplify_eq/=.
  destruct (position (data l) y x) as [p|] eqn:Hp; simplify_eq/=.
  by exists ref, l, p.
Qed.

(** The click that moves, run on a store that satisfies [selection_inv]. *)
Lemma move_click_run st x y sx sy gid t :
  selection_inv st →
  selection st = triple sx sy gid →
  sprite_cell st y x = Some 0 →
  terrain_at st y x = Some t → t ≠ "water" → t ≠ "mountains" →
  ∃ ref l p q,
    layernames (tmx_data st) !! "Sprite Layer" = Some ref
    ∧ layers (tmx_data st) !! ref = Some l
    ∧ position (data l) y x = Some p ∧ cell_at (data l) p = Some 0
    ∧ position (data l) sy sx = Some q ∧ cell_at (data l) q = Some gid
    ∧ gid ≠ 0
    ∧ on_mouse_button_up x y st = (after_move st ref l p q gid, Done tt).
Proof.
  intros [Hinv|(sx' & sy' & gid' & Hinv & Hnz & Hsrc)] Hsel Hdst Ht Hw Hm;
    [unfold triple in *; congruence|].
  rewrite Hsel in Hinv. unfold triple in Hinv. simplify_eq.
  pose proof Hdst as Hdst'.
  apply layer_cell_Some in Hdst' as (ref & l & p & Hn & Hl & Hp & Hcp).
  apply layer_cell_Some in Hsrc as (ref' & l' & q & Hn' & Hl' & Hq & Hcq).
  assert (ref' = ref) as -> by congruence.
  assert (l' = l) as -> by congruence.
  exists ref, l, p, q. repeat (split; [done|]).
  rewrite on_mouse_button_up_eq, Hn.
  apply (terrain_outcome_Done (tmx_data st) st x y t eq_refl) in Ht. rewrite Ht.
  rewrite select_or_move_eq.
  apply (read_cell_outcome_Done _ _ ref) in Hdst; [|done]. rewrite Hdst.
  rewrite Hsel. simpl.
  rewrite decide_False by (intros ?; done).
  rewrite !decide_False by done.
  by apply move_selection_run with sx' sy'.
Qed.

Lemma sprite_cell_unchanged st st' y x :
  tmx_data st' = tmx_data st → sprite_cell st' y x = sprite_cell st y x.
Proof. unfold sprite_cell. by intros ->. Qed.

Lemma selection_inv_ext st st' :
  selection st' = selection st → tmx_data st' = tmx_data st →
  selection_inv st → selection_inv st'.
Proof.
  intros Hs Ht [Hnone|(x & y & gid & Hsel & Hnz & Hcell)].
  - left. congruence.
  - right. exists x, y, gid. rewrite Hs, (sprite_cell_unchanged st st') by done.
    done.
Qed.

Lemma reachable_selection_inv st : reachable st → selection_inv st.
Proof.
  induction 1 as [tm|st _ IH|st ev st' _ IH Hev]; [by left| |].
  { by apply (selection_inv_ext st). }
  destruct ev as [|key| |x y|]; cbn [handle_event] in Hev.
  - apply (selection_inv_ext st); [..|done];
      cbv [bind set_exit_status set_running] in Hev; by simplify_eq.
  - apply (selection_inv_ext st); [..|done]; case_decide;
      cbv [bind set_exit_status set_running ret] in Hev; by simplify_eq.
  - cbv [ret] in Hev. by simplify_eq.
  - pose proof Hev as Hclick. rewrite on_mouse_button_up_eq in Hev.
    destruct (layernames (tmx_data st) !! "Sprite Layer") as [layer|] eqn:Hn;
      [|done].
    destruct (terrain_outcome (tmx_data st) x y) as [t|e] eqn:Ht; [|done].
    rewrite select_or_move_eq in Hev.
    destruct (read_cell_outcome (tmx_data st) layer y x) as [here|e] eqn:Hr;
      [|done].
    apply (read_cell_outcome_Done _ "Sprite Layer") in Hr; [|done].
    destruct (truthy (selection st)) eqn:Htr.
    + destruct IH as [Hnone|(sx & sy & gid & Hsel & Hnz & Hsrc)].
      { by rewrite Hnone in Htr. }
      repeat case_decide; simplify_eq; try (right; by eauto 10).
      apply (terrain_outcome_Done (tmx_data st) st x y t eq_refl) in Ht.
      destruct (move_click_run st x y sx sy gid t) as (?&?&?&?&?&?&?&?&?&?&?&Hrun);
        [right; by eauto 10|done..|].
      left. rewrite Hrun in Hclick. by simplify_eq.
    + cbv [set_selection] in Hev. case_decide; simplify_eq; [|done].
      right. exists x, y, here. by repeat split.
  - cbv [ret] in Hev. by simplify_eq.
Qed.

Lemma cell_at_moved rows p q gid p' :
  is_Some (cell_at rows p) → is_Some (cell_at rows q) →
  cell_at (set_cell (set_cell rows p gid) q 0) p'
  = if decide (p' = q) then Some 0
    else if decide (p' = p) then Some gid else cell_at rows p'.
Proof.
  intros Hp Hq. rewrite cell_at_set_cell.
  - case_decide; [done|]. by apply cell_at_set_cell.
  - rewrite cell_at_set_cell by done. by case_decide.
Qed.

Lemma sprite_cell_after_move st ref l p q gid y x :
  layernames (tmx_data st) !! "Sprite Layer" = Some ref →
  layers (tmx_data st) !! ref = Some l →
  sprite_cell (after_move st ref l p q gid) y x
  = (p' ← position (data l) y x;
     cell_at (set_cell (set_cell (data l) p gid) q 0) p').
Proof.
  intros Hn Hl. unfold sprite_cell, after_move. rewrite layer_cell_position.
  cbn [tmx_data].
  rewrite (layernames_insert _ _ ref l) by done.
  replace (layernames {| layers := layers (tmx_data st);
                         tile_properties := tile_properties (tmx_data st) |})
    with (layernames (tmx_data st)) by by destruct (tmx_data st).
  rewrite Hn. cbn [layers mbind option_bind].
  rewrite list_lookup_insert_eq by by eapply lookup_lt_Some.
  cbn [mbind option_bind data]. by rewrite !position_set_cell.
Qed.

(** The selection changes to a triple only by a click on an occupied cell
    of the sprite layer, and the triple is that click's tile and the cell's
    content. *)
Lemma selection_created ev st x y gid :
  selection (handle_event ev st).1 = triple x y gid →
  selection st ≠ triple x y gid →
  ev = MOUSEBUTTONUP x y ∧ sprite_cell st y x = Some gid ∧ gid ≠ 0.
Proof.
  intros Hnew Hold. destruct ev as [|key| |x0 y0|]; cbn [handle_event] in Hnew;
    try done.
  { by case_decide. }
  rewrite on_mouse_button_up_eq in Hnew.
  destruct (layernames (tmx_data st) !! "Sprite Layer") as [layer|] eqn:Hn;
    [|done].
  destruct (terrain_outcome (tmx_data st) x0 y0) as [t|e]; [|done].
  rewrite select_or_move_eq in Hnew.
  destruct (read_cell_outcome (tmx_data st) layer y0 x0) as [here|e] eqn:Hr;
    [|done].
  apply (read_cell_outcome_Done _ "Sprite Layer") in Hr; [|done].
  destruct (truthy (selection st)); repeat case_decide; try done.
  - destruct (move_selection_selection layer x0 y0 st) as [Hs|Hs];
      rewrite Hs in Hnew; done.
  - cbv [set_selection triple] in Hnew. simpl in Hnew. by simplify_eq.
Qed.

(** ** The index builders *)

Import TiledRenderer.

Lemma foldl_spawn_lookup items (acc : gmap string Z) s gid :
  foldl spawn_step acc items !! s = Some gid →
  acc !! s = Some gid
  ∨ ∃ props, (gid, props) ∈ items ∧ props !! "spawn" = Some s.
Proof.
  revert acc. induction items as [|[g props] items IH]; intros acc Hs;
    simpl in Hs; [by left|].
  apply IH in Hs as [Hs|(props' & Hin & Hsp)].
  - unfold spawn_step in Hs. simpl in Hs.
    destruct (props !! "spawn") as [s'|] eqn:Hsp; [|by left].
    destruct (decide (s' = s)) as [->|Hne].
    + rewrite lookup_insert_eq in Hs. simplify_eq.
      right. exists props. split; [apply list_elem_of_here|done].
    + rewrite lookup_insert_ne in Hs by done. by left.
  - right. exists props'. split; [by apply list_elem_of_further|done].
Qed.

Lemma foldl_spawn_is_Some items (acc : gmap string Z) s :
  is_Some (acc !! s)
  ∨ (∃ gid props, (gid, props) ∈ items ∧ props !! "spawn" = Some s) →
  is_Some (foldl spawn_step acc items !! s).
Proof.
  revert acc. induction items as [|[g props] items IH]; intros acc Hs; simpl.
  - destruct Hs as [Hs|(gid & props & Hin & _)]; [done|].
    by apply not_elem_of_nil in Hin.
  - apply IH. destruct Hs as [Hs|(gid & props' & Hin & Hsp)].
    + left. unfold spawn_step. simpl.
      destruct (props !! "spawn") as [s'|]; [|done].
      destruct (decide (s' = s)) as [->|Hne].
      * by rewrite lookup_insert_eq.
      * by rewrite lookup_insert_ne.
    + apply elem_of_cons in Hin as [Heq|Hin].
      * simplify_eq. left. unfold spawn_step. simpl. rewrite Hsp.
        by rewrite lookup_insert_eq.
      * right. eauto.
Qed.

Lemma foldl_spawn_filter items (acc : gmap string Z) :
  foldl spawn_step acc (filter (λ entry, is_Some (entry.2 !! "spawn")) items)
  = foldl spawn_step acc items.
Proof.
  revert acc. induction items as [|[g props] items IH]; intros acc; [done|].
  rewrite filter_cons. simpl. destruct (decide _) as [Hs|Hs]; simpl.
  - apply IH.
  - rewrite IH. unfold spawn_step at 3. simpl.
    destruct (props !! "spawn"); [|done]. by destruct Hs.
Qed.

(** ** Leaving the loop *)

Lemma handle_event_quit ev st :
  is_quit ev = true →
  (handle_event ev st).2 = Done tt ∧ stopped (handle_event ev st).1.
Proof.
  destruct ev as [|key| | |]; try done. simpl.
  intros Hkey%bool_decide_eq_true. by rewrite decide_True.
Qed.

Lemma handle_event_stopped ev st :
  stopped st → stopped (handle_event ev st).1.
Proof.
  intros [Hr He]. destruct ev as [|key| |x y|]; try done.
  - simpl. by case_decide.
  - cbn [handle_event]. split.
    + by rewrite (unchanged_on_mouse_button_up running).
    + by rewrite (unchanged_on_mouse_button_up exit_status).
Qed.

Lemma handle_events_stopped evs st :
  stopped st → stopped (handle_events evs st).1.
Proof.
  revert st. induction evs as [|ev evs IH]; intros st Hst; [done|].
  simpl. rewrite bind_eq.
  pose proof (handle_event_stopped ev st Hst) as Hev.
  destruct (handle_event ev st) as [st' [[]|e]]; simpl in *; [|done].
  by apply IH.
Qed.

Lemma handle_events_app evs1 evs2 st :
  handle_events (evs1 ++ evs2) st
  = (handle_events evs1;;; handle_events evs2) st.
Proof.
  revert st. induction evs1 as [|ev evs1 IH]; intros st; [done|].
  simpl. rewrite !bind_eq.
  destruct (handle_event ev st) as [st' [[]|e]]; [|done].
  by rewrite IH.
Qed.

Lemma main_loop_eq frames st :
  main_loop frames st =
  if running st then
    match frames with
    | [] => (st, Done false)
    | evs :: rest => (handle_events evs;;; draw;;; main_loop rest) st
    end
  else (st, Done true).
Proof. by destruct frames. Qed.

(** A script that is used up with the loop still running can be
    continued. *)
Lemma main_loop_app frames rest st st1 :
  main_loop frames st = (st1, Done false) →
  running st1 = true ∧ main_loop (frames ++ rest) st = main_loop rest st1.
Proof.
  revert st. induction frames as [|evs frames IH]; intros st Hloop;
    rewrite main_loop_eq in Hloop; destruct (running st) eqn:Hrun; try done.
  - by simplify_eq.
  - rewrite bind_eq in Hloop. simpl. rewrite Hrun, bind_eq.
    destruct (handle_events evs st) as [st' [[]|e]]; [|done].
    rewrite bind_eq in Hloop |- *. unfold draw in Hloop |- *.
    rewrite ret_run in Hloop |- *. by apply IH.
Qed.

Lemma run_eq frames st :
  run frames st =
  match main_loop frames ((set_running true;;; set_exit_status 1) st).1 with
  | (st', Done true) => (st', Done (Some (exit_status st')))
  | (st', Done false) => (st', Done None)
  | (st', Raised e) => (st', Raised e)
  end.
Proof.
  unfold run. rewrite bind_eq. cbn [set_running]. rewrite bind_eq.
  cbn [set_exit_status]. rewrite bind_eq. simpl.
  by destruct (main_loop frames _) as [st' [[]|e]].
Qed.

(** X19: the layers change only by a move: a click that changes the map
    had a selection, a free cell of the sprite layer under it, and a
    terrain that is neither water nor mountains. *)
Lemma layers_change_only_by_a_move st x y :
  tmx_data (handle_event (MOUSEBUTTONUP x y) st).1 ≠ tmx_data st →
  truthy (selection st) = true
  ∧ sprite_cell st y x = Some 0
  ∧ ∃ t, terrain_at st y x = Some t ∧ t ≠ "water" ∧ t ≠ "mountains".
Proof.
  cbn [handle_event]. rewrite on_mouse_button_up_eq. intros Hch.
  destruct (layernames (tmx_data st) !! "Sprite Layer") as [layer|] eqn:Hn;
    [|done].
  destruct (terrain_outcome (tmx_data st) x y) as [t|e] eqn:Ht; [|done].
  apply (terrain_outcome_Done (tmx_data st) st x y t eq_refl) in Ht.
  rewrite select_or_move_eq in Hch.
  destruct (read_cell_outcome (tmx_data st) layer y x) as [here|e] eqn:Hr;
    [|done].
  apply (read_cell_outcome_Done _ "Sprite Layer") in Hr; [|done].
  destruct (truthy (selection st)); repeat case_decide; try done.
  subst here. split; [done|]. split; [done|]. by exists t.
Qed.

(** The example state is reachable: one click from the start. *)
Lemma demo_selected_reachable : reachable demo_selected.
Proof.
  apply (reach_event (new_SimpleTest demo_map) (MOUSEBUTTONUP 0 0)).
  - apply reach_new.
  - vm_compute. reflexivity.
Qed.

(** * The claims *)

(** C1: in every state the application reaches, a click on tile (x, y)
    while the triple (sx, sy, gid) is selected, on a free cell of the sprite
    layer whose World Layer terrain is neither water nor mountains,
    completes; afterwards the sprite layer holds gid at (y, x) and 0 at
    (sy, sx), and nothing is selected. *)
Theorem move_onto_free_tile st x y sx sy gid terrain :
  reachable st →
  selection st = triple sx sy gid →
  sprite_cell st y x = Some 0 →
  terrain_at st y x = Some terrain →
  terrain ≠ "water" → terrain ≠ "mountains" →
  ∃ st', handle_event (MOUSEBUTTONUP x y) st = (st', Done tt)
         ∧ sprite_cell st' y x = Some gid
         ∧ sprite_cell st' sy sx = Some 0
         ∧ selection st' = PyNone.
Proof.
  intros Hreach Hsel Hdst Ht Hw Hm.
  destruct (move_click_run st x y sx sy gid terrain)
    as (ref & l & p & q & Hn & Hl & Hp & Hcp & Hq & Hcq & Hnz & Hrun);
    auto using reachable_selection_inv.
  exists (after_move st ref l p q gid). split; [done|].
  rewrite !(sprite_cell_after_move st ref l) by done.
  rewrite Hp, Hq. cbn [mbind option_bind].
  rewrite !cell_at_moved by (by rewrite ?Hcp, ?Hcq).
  assert (p ≠ q) by (intros ->; congruence).
  rewrite decide_False, !decide_True by done. done.
Qed.

Lemma move_onto_free_tile_witness :
  (reachable demo_selected
   ∧ selection demo_selected = triple 0 0 5
   ∧ sprite_cell demo_selected 0 2 = Some 0
   ∧ terrain_at demo_selected 0 2 = Some "grass")
  ∧ ∃ st', handle_event (MOUSEBUTTONUP 2 0) demo_selected = (st', Done tt)
           ∧ sprite_cell st' 0 2 = Some 5
           ∧ sprite_cell st' 0 0 = Some 0
           ∧ selection st' = PyNone.
Proof.
  assert (selection demo_selected = triple 0 0 5) as Hsel
    by (vm_compute; reflexivity).
  assert (sprite_cell demo_selected 0 2 = Some 0) as Hdst
    by (vm_compute; reflexivity).
  assert (terrain_at demo_selected 0 2 = Some "grass") as Hter
    by (vm_compute; reflexivity).
  split.
  - repeat split; [apply demo_selected_reachable|assumption..].
  - apply (move_onto_free_tile demo_selected 2 0 0 0 5 "grass");
      [apply demo_selected_reachable|assumption..|discriminate|discriminate].
Defined.

(** C2: a click while something is selected, on a tile whose sprite cell
    is not 0 or whose terrain is water or mountains, leaves the whole
    store (every layer and the selection) as it was; it completes whenever
    the clicked sprite cell and the terrain are there. *)
Theorem blocked_move_changes_nothing st x y :
  truthy (selection st) = true →
  (∃ c, sprite_cell st y x = Some c ∧ c ≠ 0)
  ∨ terrain_at st y x = Some "water"
  ∨ terrain_at st y x = Some "mountains" →
  (handle_event (MOUSEBUTTONUP x y) st).1 = st
  ∧ (is_Some (sprite_cell st y x) → is_Some (terrain_at st y x) →
     handle_event (MOUSEBUTTONUP x y) st = (st, Done tt)).
Proof.
  intros Hsel Hblocked. cbn [handle_event]. rewrite on_mouse_button_up_eq.
  destruct (layernames (tmx_data st) !! "Sprite Layer") as [layer|] eqn:Hn.
  2:{ split; [done|]. unfold sprite_cell, layer_cell. rewrite Hn.
      by intros [? [=]]. }
  destruct (terrain_outcome (tmx_data st) x y) as [t|e] eqn:Ht.
  2:{ split; [done|]. intros _ [t Ht'].
      apply (terrain_outcome_Done (tmx_data st) st x y t eq_refl) in Ht'.
      congruence. }
  apply (terrain_outcome_Done (tmx_data st) st x y t eq_refl) in Ht.
  rewrite select_or_move_eq.
  destruct (read_cell_outcome (tmx_data st) layer y x) as [here|e] eqn:Hr.
  2:{ split; [done|]. intros [c Hc] _.
      apply (read_cell_outcome_Done _ _ layer) in Hc; [|done]. congruence. }
  apply (read_cell_outcome_Done _ "Sprite Layer") in Hr; [|done].
  fold (sprite_cell st y x) in Hr.
  rewrite Hsel. repeat case_decide; try done.
  exfalso. destruct Hblocked as [(c & Hc & Hnz)|[Hb|Hb]]; congruence.
Qed.

Lemma blocked_move_changes_nothing_witness :
  (truthy (selection demo_selected) = true
   ∧ terrain_at demo_selected 0 1 = Some "water")
  ∧ (handle_event (MOUSEBUTTONUP 1 0) demo_selected).1 = demo_selected
  ∧ (is_Some (sprite_cell demo_selected 0 1) →
     is_Some (terrain_at demo_selected 0 1) →
     handle_event (MOUSEBUTTONUP 1 0) demo_selected = (demo_selected, Done tt)).
Proof.
  assert (truthy (selection demo_selected) = true) as Hsel
    by (vm_compute; reflexivity).
  assert (terrain_at demo_selected 0 1 = Some "water") as Hter
    by (vm_compute; reflexivity).
  split; [by split|].
  apply (blocked_move_changes_nothing demo_selected 1 0); [assumption|].
  right. left. assumption.
Defined.

(** C3, as the code has it: a click on a tile whose sprite cell holds a
    nonzero gid g, the terrain of the tile being there, selects (x, y, g)
    when nothing is selected, and changes nothing when something is. *)
Theorem occupied_click_selects_when_idle st x y g :
  sprite_cell st y x = Some g → g ≠ 0 →
  is_Some (terrain_at st y x) →
  handle_event (MOUSEBUTTONUP x y) st
  = if truthy (selection st) then (st, Done tt)
    else set_selection (triple x y g) st.
Proof.
  intros Hc Hnz [t Ht]. cbn [handle_event]. rewrite on_mouse_button_up_eq.
  pose proof Hc as Hc'.
  apply layer_cell_Some in Hc' as (layer & l & p & Hn & _).
  rewrite Hn.
  apply (terrain_outcome_Done (tmx_data st) st x y t eq_refl) in Ht. rewrite Ht.
  rewrite select_or_move_eq.
  apply (read_cell_outcome_Done _ _ layer) in Hc; [|done]. rewrite Hc.
  by rewrite !decide_True.
Qed.

Lemma occupied_click_selects_when_idle_witness :
  (sprite_cell (new_SimpleTest demo_map) 1 1 = Some 7
   ∧ terrain_at (new_SimpleTest demo_map) 1 1 = Some "grass")
  ∧ handle_event (MOUSEBUTTONUP 1 1) (new_SimpleTest demo_map)
    = if truthy (selection (new_SimpleTest demo_map))
      then (new_SimpleTest demo_map, Done tt)
      else set_selection (triple 1 1 7) (new_SimpleTest demo_map).
Proof.
  assert (sprite_cell (new_SimpleTest demo_map) 1 1 = Some 7) as Hcell
    by (vm_compute; reflexivity).
  assert (terrain_at (new_SimpleTest demo_map) 1 1 = Some "grass") as Hter
    by (vm_compute; reflexivity).
  split; [by split|].
  apply (occupied_click_selects_when_idle (new_SimpleTest demo_map) 1 1 7);
    [assumption|discriminate|by exists "grass"].
Defined.

(** C3 as stated fails: with (0, 0, 5) selected, a click on the occupied
    tile at column 1 of row 1 (sprite 7) completes and the selection is
    still (0, 0, 5), not (1, 1, 7). *)
Lemma occupied_click_keeps_earlier_selection :
  selection demo_selected = triple 0 0 5
  ∧ sprite_cell demo_selected 1 1 = Some 7
  ∧ handle_event (MOUSEBUTTONUP 1 1) demo_selected = (demo_selected, Done tt)
  ∧ selection (handle_event (MOUSEBUTTONUP 1 1) demo_selected).1 ≠ triple 1 1 7.
Proof. repeat split; try (vm_compute; reflexivity). vm_compute. discriminate. Qed.

(** C4: the selection is [None] or one triple of integers (x, y, tile id):
    it is so when [__init__] returns, every event keeps it so (also an
    event that raises), and so do [run] and every reachable state. *)
Theorem selection_is_none_or_one_triple :
  (∀ tm, selection_shape (selection (new_SimpleTest tm)))
  ∧ (∀ ev st, selection_shape (selection st) →
              selection_shape (selection (handle_event ev st).1))
  ∧ (∀ frames st, selection_shape (selection st) →
                  selection_shape (selection (run frames st).1))
  ∧ (∀ st, reachable st → selection_shape (selection st)).
Proof.
  assert (selection_shape PyNone) as Hnone by by left.
  assert (∀ x y c, c ≠ 0 → selection_shape (triple x y c)) as Htriple
    by (intros x y c _; right; by exists x, y, c).
  repeat split.
  - done.
  - intros ev st. by apply handle_event_selection.
  - intros frames st. by apply run_selection.
  - intros st. by apply reachable_selection.
Qed.

(** C5, as the code has it: let [run] have handled the frames [before]
    with the loop still running, and let the next frame hold an ESC key
    press or a QUIT event [ev]; if the events of that frame before [ev] and
    those after it are handled without an exception, [run] returns 0 at the
    end of that frame, whatever frames follow. *)
Theorem quit_event_ends_run st before pre ev post rest st1 st2 st3 :
  run before st = (st1, Done None) →
  handle_events pre st1 = (st2, Done tt) →
  is_quit ev = true →
  handle_events post (handle_event ev st2).1 = (st3, Done tt) →
  run (before ++ (pre ++ ev :: post) :: rest) st = (st3, Done (Some 0))
  ∧ running st3 = false.
Proof.
  intros Hbefore Hpre Hquit Hpost.
  rewrite run_eq in Hbefore. rewrite run_eq.
  destruct (main_loop before _) as [st' [[]|e]] eqn:Hloop; simplify_eq.
  apply (main_loop_app _ ((pre ++ ev :: post) :: rest)) in Hloop
    as [Hrun ->].
  rewrite main_loop_eq, Hrun, bind_eq, handle_events_app, bind_eq, Hpre.
  cbn [handle_events]. rewrite bind_eq.
  destruct (handle_event_quit ev st2 Hquit) as [Hdone Hstop].
  destruct (handle_event ev st2) as [st2' o]. simpl in *. subst o.
  rewrite Hpost.
  pose proof (handle_events_stopped post st2' Hstop) as [Hr He].
  rewrite Hpost in Hr, He. simpl in *.
  rewrite bind_eq. unfold draw. rewrite ret_run, main_loop_eq, Hr, He. done.
Qed.

Lemma quit_event_ends_run_witness :
  (run [[MOUSEBUTTONUP 0 0]] (new_SimpleTest demo_map)
   = (demo_selected_running, Done None)
   ∧ handle_events [OTHER] demo_selected_running
     = (demo_selected_running, Done tt)
   ∧ is_quit (KEYDOWN K_ESCAPE) = true)
  ∧ run ([[MOUSEBUTTONUP 0 0]]
         ++ ([OTHER] ++ KEYDOWN K_ESCAPE :: [MOUSEBUTTONUP 2 0]) :: [[OTHER]])
      (new_SimpleTest demo_map)
    = ((run [[MOUSEBUTTONUP 0 0]; [OTHER; KEYDOWN K_ESCAPE; MOUSEBUTTONUP 2 0]]
          (new_SimpleTest demo_map)).1, Done (Some 0))
  ∧ running (run [[MOUSEBUTTONUP 0 0]; [OTHER; KEYDOWN K_ESCAPE; MOUSEBUTTONUP 2 0]]
               (new_SimpleTest demo_map)).1 = false.
Proof.
  assert (run [[MOUSEBUTTONUP 0 0]] (new_SimpleTest demo_map)
          = (demo_selected_running, Done None)) as Hbefore
    by (vm_compute; reflexivity).
  assert (handle_events [OTHER] demo_selected_running
          = (demo_selected_running, Done tt)) as Hpre
    by (vm_compute; reflexivity).
  split; [by repeat split|].
  apply (quit_event_ends_run (new_SimpleTest demo_map) [[MOUSEBUTTONUP 0 0]]
           [OTHER] (KEYDOWN K_ESCAPE) [MOUSEBUTTONUP 2 0] [[OTHER]]
           demo_selected_running demo_selected_running);
    [assumption|assumption|reflexivity|vm_compute; reflexivity].
Defined.

(** C5 as stated fails: [run] handles a QUIT event, which stops the loop
    with exit status 0, and then an exception of a later event of the same
    frame (a click outside the map) ends [run] before it returns. *)
Lemma quit_then_failing_click_raises :
  is_quit QUIT = true
  ∧ stopped (handle_events [QUIT]
               ((set_running true;;; set_exit_status 1)
                  (new_SimpleTest demo_map)).1).1
  ∧ (run [[QUIT; MOUSEBUTTONUP 7 0]] (new_SimpleTest demo_map)).2
    = Raised IndexError.
Proof. repeat split; vm_compute; reflexivity. Qed.

(** C6 fails on the code: for a character with the modes "idle" and "walk"
    on tiles 1 and 2, [build_character_index] returns an index that has
    the entry of "walk" only, because line 100 tests [team], not [name],
    and line 101 starts the character's dictionary afresh. *)
Theorem build_character_index_keeps_last_mode_only :
  ∃ characters,
    build_character_index two_modes = Done characters
    ∧ character_gid characters "red" "dude" "idle" = None
    ∧ character_gid characters "red" "dude" "walk" = Some 2.
Proof. eexists. split; [reflexivity|]. split; vm_compute; reflexivity. Qed.

(** The same line makes the builder raise when a character bears the name
    of its team and another character of the team follows. *)
Lemma build_character_index_raises :
  build_character_index named_like_team = Raised KeyError.
Proof. vm_compute. reflexivity. Qed.

(** C7: every entry of the spawn index comes from a tile with a "spawn"
    property: its key is that property's value and its value the tile's
    gid; every "spawn" value of a tile is a key of the index; tiles without
    the property contribute nothing. *)
Theorem build_spawn_index_entries tm :
  (∀ s gid, build_spawn_index tm !! s = Some gid →
     ∃ props, (gid, props) ∈ tile_properties tm ∧ props !! "spawn" = Some s)
  ∧ (∀ gid props s, (gid, props) ∈ tile_properties tm →
       props !! "spawn" = Some s → is_Some (build_spawn_index tm !! s))
  ∧ build_spawn_index tm
    = build_spawn_index
        {| layers := layers tm;
           tile_properties :=
             filter (λ entry, is_Some (entry.2 !! "spawn")) (tile_properties tm) |}.
Proof.
  unfold build_spawn_index. repeat split.
  - intros s gid Hs. apply foldl_spawn_lookup in Hs as [Hs|Hs]; [|done].
    by rewrite lookup_empty in Hs.
  - intros gid props s Hin Hs. apply foldl_spawn_is_Some. right. eauto.
  - simpl. by rewrite foldl_spawn_filter.
Qed.

(** C8: the tile id of a selected triple is never 0: it is so when
    [__init__] returns, every event keeps it so, so do [run] and every
    reachable state; an event makes a triple the selection only by a click
    on a cell of the sprite layer that holds that nonzero tile id; and in
    every reachable state a selection that is not [None] is a triple whose
    tile id is not 0 and is what its cell of the sprite layer holds. *)
Theorem selected_tile_id_is_nonzero :
  (∀ tm, selected_gid_nonzero (selection (new_SimpleTest tm)))
  ∧ (∀ ev st, selected_gid_nonzero (selection st) →
              selected_gid_nonzero (selection (handle_event ev st).1))
  ∧ (∀ frames st, selected_gid_nonzero (selection st) →
                  selected_gid_nonzero (selection (run frames st).1))
  ∧ (∀ st, reachable st → selected_gid_nonzero (selection st))
  ∧ (∀ ev st x y gid,
       selection (handle_event ev st).1 = triple x y gid →
       selection st ≠ triple x y gid →
       ev = MOUSEBUTTONUP x y ∧ sprite_cell st y x = Some gid ∧ gid ≠ 0)
  ∧ (∀ st, reachable st → selection_inv st).
Proof.
  assert (selected_gid_nonzero PyNone) as Hnone by by intros x y gid.
  assert (∀ x y c, c ≠ 0 → selected_gid_nonzero (triple x y c)) as Htriple.
  { intros x y c Hc x' y' gid Heq. unfold triple in Heq. by simplify_eq. }
  split; [done|].
  split; [intros ev st; by apply handle_event_selection|].
  split; [intros frames st; by apply run_selection|].
  split; [intros st; by apply reachable_selection|].
  split; [apply selection_created|apply reachable_selection_inv].
Qed.

(** C9: the terrain of the clicked World Layer tile is looked up before
    any branch: when that tile has no properties, or they lack "terrain",
    the click raises and the store is as before, whatever the selection
    and the sprite layer hold; with a sprite layer present the exception
    is the TypeError or KeyError of that lookup. *)
Theorem click_without_terrain_raises st x y tile :
  layer_cell (tmx_data st) "World Layer" y x = Some tile →
  get_tile_properties_by_gid (tmx_data st) tile = None
  ∨ (∃ props, get_tile_properties_by_gid (tmx_data st) tile = Some props
              ∧ props !! "terrain" = None) →
  ∃ e, handle_event (MOUSEBUTTONUP x y) st = (st, Raised e)
       ∧ (is_Some (layernames (tmx_data st) !! "Sprite Layer") →
          e = match get_tile_properties_by_gid (tmx_data st) tile with
              | None => TypeError
              | Some _ => KeyError
              end).
Proof.
  intros Hw Hp. cbn [handle_event]. rewrite on_mouse_button_up_eq.
  destruct (layernames (tmx_data st) !! "Sprite Layer") as [layer|].
  2:{ exists ValueError. split; [done|]. by intros [? [=]]. }
  unfold terrain_outcome.
  apply layer_cell_Some in Hw as Hw'. destruct Hw' as (w & _ & _ & Hn & _).
  rewrite Hn.
  apply (read_cell_outcome_Done _ _ w) in Hw; [|done]. rewrite Hw.
  destruct Hp as [Hp|(props & Hp & Ht)]; rewrite Hp; [by eauto|].
  rewrite Ht. by eauto.
Qed.

Lemma click_without_terrain_raises_witness :
  (layer_cell demo_map "World Layer" 1 2 = Some 3
   ∧ get_tile_properties_by_gid demo_map 3 = None)
  ∧ ∃ e, handle_event (MOUSEBUTTONUP 2 1) (new_SimpleTest demo_map)
         = (new_SimpleTest demo_map, Raised e)
         ∧ (is_Some (layernames (tmx_data (new_SimpleTest demo_map))
                       !! "Sprite Layer") →
            e = match get_tile_properties_by_gid
                        (tmx_data (new_SimpleTest demo_map)) 3 with
                | None => TypeError
                | Some _ => KeyError
                end).
Proof.
  assert (layer_cell demo_map "World Layer" 1 2 = Some 3) as Hcell
    by (vm_compute; reflexivity).
  assert (get_tile_properties_by_gid demo_map 3 = None) as Hprops
    by (vm_compute; reflexivity).
  split; [by split|].
  apply (click_without_terrain_raises (new_SimpleTest demo_map) 2 1 3);
    [assumption|by left].
Defined.

(** C10: in every state the application reaches, a successful move
    changes two cells of the sprite layer and nothing else: the
    destination goes from 0 to the moved tile id, the source from that
    tile id to 0; every other cell of the sprite layer, every other layer,
    the layer's name and the tile properties are as before. *)
Theorem move_changes_two_cells st x y sx sy gid terrain :
  reachable st →
  selection st = triple sx sy gid →
  sprite_cell st y x = Some 0 →
  terrain_at st y x = Some terrain →
  terrain ≠ "water" → terrain ≠ "mountains" →
  ∃ st' ref l l' p q,
    handle_event (MOUSEBUTTONUP x y) st = (st', Done tt)
    ∧ layernames (tmx_data st) !! "Sprite Layer" = Some ref
    ∧ layers (tmx_data st) !! ref = Some l
    ∧ layers (tmx_data st') !! ref = Some l'
    ∧ layer_name l' = layer_name l
    ∧ position (data l) y x = Some p
    ∧ position (data l) sy sx = Some q
    ∧ p ≠ q ∧ gid ≠ 0
    ∧ cell_at (data l) p = Some 0 ∧ cell_at (data l') p = Some gid
    ∧ cell_at (data l) q = Some gid ∧ cell_at (data l') q = Some 0
    ∧ (∀ p', p' ≠ p → p' ≠ q → cell_at (data l') p' = cell_at (data l) p')
    ∧ length (layers (tmx_data st')) = length (layers (tmx_data st))
    ∧ (∀ j, j ≠ ref → layers (tmx_data st') !! j = layers (tmx_data st) !! j)
    ∧ tile_properties (tmx_data st') = tile_properties (tmx_data st).
Proof.
  intros Hreach Hsel Hdst Ht Hw Hm.
  destruct (move_click_run st x y sx sy gid terrain)
    as (ref & l & p & q & Hn & Hl & Hp & Hcp & Hq & Hcq & Hnz & Hrun);
    auto using reachable_selection_inv.
  assert (p ≠ q) as Hpq by (intros ->; congruence).
  assert (is_Some (cell_at (data l) p)) as Hsp by by rewrite Hcp.
  assert (is_Some (cell_at (data l) q)) as Hsq by by rewrite Hcq.
  exists (after_move st ref l p q gid), ref, l,
    {| layer_name := layer_name l;
       data := set_cell (set_cell (data l) p gid) q 0 |}, p, q.
  cbn [after_move tmx_data layers tile_properties layer_name data].
  repeat split; try done.
  - apply list_lookup_insert_eq. by eapply lookup_lt_Some.
  - rewrite cell_at_moved by done.
    by rewrite decide_False, decide_True.
  - rewrite cell_at_moved by done. by rewrite decide_True.
  - intros p' Hp' Hq'. rewrite cell_at_moved by done.
    by rewrite !decide_False.
  - apply length_insert.
  - intros j Hj. by apply list_lookup_insert_ne.
Qed.

Lemma move_changes_two_cells_witness :
  ∃ st' ref l l' p q,
    handle_event (MOUSEBUTTONUP 2 0) demo_selected = (st', Done tt)
    ∧ layernames (tmx_data demo_selected) !! "Sprite Layer" = Some ref
    ∧ layers (tmx_data demo_selected) !! ref = Some l
    ∧ layers (tmx_data st') !! ref = Some l'
    ∧ layer_name l' = layer_name l
    ∧ position (data l) 0 2 = Some p
    ∧ position (data l) 0 0 = Some q
    ∧ p ≠ q ∧ 5 ≠ 0
    ∧ cell_at (data l) p = Some 0 ∧ cell_at (data l') p = Some 5
    ∧ cell_at (data l) q = Some 5 ∧ cell_at (data l') q = Some 0
    ∧ (∀ p', p' ≠ p → p' ≠ q → cell_at (data l') p' = cell_at (data l) p')
    ∧ length (layers (tmx_data st')) = length (layers (tmx_data demo_selected))
    ∧ (∀ j, j ≠ ref →
         layers (tmx_data st') !! j = layers (tmx_data demo_selected) !! j)
    ∧ tile_properties (tmx_data st') = tile_properties (tmx_data demo_selected).
Proof.
  apply (move_changes_two_cells demo_selected 2 0 0 0 5 "grass").
  - apply demo_selected_reachable.
  - vm_compute. reflexivity.
  - vm_compute. reflexivity.
  - vm_compute. reflexivity.
  - discriminate.
  - discriminate.
Defined.

(** * Further properties of the event loop *)

(** While the loop runs, the flag is up or the exit status is 0. *)
Lemma handle_event_flag_or_zero ev st :
  running st = true ∨ exit_status st = 0 →
  running (handle_event ev st).1 = true ∨ exit_status (handle_event ev st).1 = 0.
Proof.
  intros Hst. destruct ev as [|key| |x y|]; try done.
  - by right.
  - simpl. case_decide; [by right|done].
  - cbn [handle_event].
    by rewrite (unchanged_on_mouse_button_up running),
      (unchanged_on_mouse_button_up exit_status).
Qed.

Lemma handle_events_flag_or_zero evs st :
  running st = true ∨ exit_status st = 0 →
  running (handle_events evs st).1 = true
  ∨ exit_status (handle_events evs st).1 = 0.
Proof.
  revert st. induction evs as [|ev evs IH]; intros st Hst; [done|].
  simpl. rewrite bind_eq.
  pose proof (handle_event_flag_or_zero ev st Hst) as Hev.
  destruct (handle_event ev st) as [st' [[]|e]]; simpl in *; [|done].
  by apply IH.
Qed.

Lemma main_loop_left frames st st' :
  running st = true ∨ exit_status st = 0 →
  main_loop frames st = (st', Done true) →
  running st' = false ∧ exit_status st' = 0.
Proof.
  revert st. induction frames as [|evs frames IH]; intros st Hst Hloop;
    rewrite main_loop_eq in Hloop; destruct (running st) eqn:Hrun;
    try (simplify_eq; by destruct Hst).
  rewrite bind_eq in Hloop.
  pose proof (handle_events_flag_or_zero evs st (or_introl Hrun)) as Hevs.
  destruct (handle_events evs st) as [st1 [[]|e]]; [|done].
  rewrite bind_eq in Hloop. unfold draw in Hloop. rewrite ret_run in Hloop.
  by eapply IH.
Qed.

(** An event that is no quit event leaves the flag as it is. *)
Lemma handle_event_running ev st :
  is_quit ev = false → running (handle_event ev st).1 = running st.
Proof.
  destruct ev as [|key| |x y|]; try done.
  - simpl. intros Hkey%bool_decide_eq_false. by rewrite decide_False.
  - intros _. cbn [handle_event].
    by rewrite (unchanged_on_mouse_button_up running).
Qed.

Lemma handle_events_running evs st :
  Forall (λ ev, is_quit ev = false) evs →
  running (handle_events evs st).1 = running st.
Proof.
  intros Hevs. revert st. induction Hevs as [|ev evs Hev _ IH]; intros st;
    [done|].
  simpl. rewrite bind_eq.
  pose proof (handle_event_running ev st Hev) as Hrun.
  destruct (handle_event ev st) as [st' [[]|e]]; simpl in *; [|done].
  by rewrite IH.
Qed.

Lemma main_loop_no_quit frames st st' left :
  Forall (Forall (λ ev, is_quit ev = false)) frames →
  running st = true →
  main_loop frames st = (st', Done left) →
  left = false ∧ running st' = true.
Proof.
  intros Hframes. revert st.
  induction Hframes as [|evs frames Hevs _ IH]; intros st Hrun Hloop;
    rewrite main_loop_eq, Hrun in Hloop; [by simplify_eq|].
  rewrite bind_eq in Hloop.
  pose proof (handle_events_running evs st Hevs) as Hrun'.
  destruct (handle_events evs st) as [st1 [[]|e]]; [|done].
  rewrite bind_eq in Hloop. unfold draw in Hloop. rewrite ret_run in Hloop.
  apply (IH st1); [|done]. simpl in Hrun'. congruence.
Qed.

(** Once the loop is left or an exception is raised, further frames are
    not looked at. *)
Lemma main_loop_ended frames more st :
  (main_loop frames st).2 ≠ Done false →
  main_loop (frames ++ more) st = main_loop frames st.
Proof.
  revert st. induction frames as [|evs frames IH]; intros st Hend;
    rewrite main_loop_eq in Hend; rewrite (main_loop_eq (_ ++ _)), main_loop_eq;
    destruct (running st) eqn:Hrun; try done.
  simpl. rewrite !bind_eq. rewrite bind_eq in Hend.
  destruct (handle_events evs st) as [st1 [[]|e]]; [|done].
  rewrite !bind_eq. rewrite bind_eq in Hend. unfold draw in *.
  rewrite ret_run in *. by apply IH.
Qed.

(** X1: the exit status that [run] returns is 0, never the 1 it starts
    from, and the flag is down when it returns. *)
Theorem run_returns_only_zero frames st st' status :
  run frames st = (st', Done (Some status)) →
  status = 0 ∧ running st' = false ∧ exit_status st' = 0.
Proof.
  rewrite run_eq. intros Hrun.
  destruct (main_loop frames _) as [st1 [[]|e]] eqn:Hloop; simplify_eq.
  apply main_loop_left in Hloop as [Hr He]; [done|by left].
Qed.

Lemma run_returns_only_zero_witness :
  run [[KEYDOWN 13; QUIT]] (new_SimpleTest demo_map)
  = ((run [[KEYDOWN 13; QUIT]] (new_SimpleTest demo_map)).1, Done (Some 0))
  ∧ (0 = 0
     ∧ running (run [[KEYDOWN 13; QUIT]] (new_SimpleTest demo_map)).1 = false
     ∧ exit_status (run [[KEYDOWN 13; QUIT]] (new_SimpleTest demo_map)).1 = 0).
Proof.
  assert (run [[KEYDOWN 13; QUIT]] (new_SimpleTest demo_map)
          = ((run [[KEYDOWN 13; QUIT]] (new_SimpleTest demo_map)).1,
             Done (Some 0))) as Hrun by (vm_compute; reflexivity).
  split; [assumption|].
  apply (run_returns_only_zero [[KEYDOWN 13; QUIT]] (new_SimpleTest demo_map)).
  assumption.
Defined.

(** X2: only a QUIT event or an ESC key press ends the loop: when no frame
    holds one, [run] completes only by using up the frames, and the flag is
    still up. *)
Theorem run_without_quit_keeps_running frames st st' result :
  Forall (Forall (λ ev, is_quit ev = false)) frames →
  run frames st = (st', Done result) →
  result = None ∧ running st' = true.
Proof.
  rewrite run_eq. intros Hframes Hrun.
  destruct (main_loop frames _) as [st1 [left|e]] eqn:Hloop; [|done].
  apply main_loop_no_quit in Hloop as [-> Hr]; [|done..].
  by simplify_eq.
Qed.

Lemma run_without_quit_keeps_running_witness :
  (Forall (Forall (λ ev, is_quit ev = false))
     [[KEYDOWN 13; MOUSEBUTTONUP 0 0]; [VIDEORESIZE 640 480; OTHER]]
   ∧ run [[KEYDOWN 13; MOUSEBUTTONUP 0 0]; [VIDEORESIZE 640 480; OTHER]]
       (new_SimpleTest demo_map)
     = (demo_selected_running, Done None))
  ∧ (@None Z = None ∧ running demo_selected_running = true).
Proof.
  assert (Forall (Forall (λ ev, is_quit ev = false))
            [[KEYDOWN 13; MOUSEBUTTONUP 0 0]; [VIDEORESIZE 640 480; OTHER]])
    as Hframes by (repeat constructor).
  assert (run [[KEYDOWN 13; MOUSEBUTTONUP 0 0]; [VIDEORESIZE 640 480; OTHER]]
            (new_SimpleTest demo_map)
          = (demo_selected_running, Done None)) as Hrun
    by (vm_compute; reflexivity).
  split; [by split|].
  apply (run_without_quit_keeps_running
           [[KEYDOWN 13; MOUSEBUTTONUP 0 0]; [VIDEORESIZE 640 480; OTHER]]
           (new_SimpleTest demo_map)); assumption.
Defined.

(** X3: when [run] has returned or raised on a script of frames, it does
    the same on every longer script: frames after the end are not read. *)
Theorem frames_after_the_end_are_not_read frames more st :
  (run frames st).2 ≠ Done None →
  run (frames ++ more) st = run frames st.
Proof.
  rewrite !run_eq. intros Hend.
  rewrite main_loop_ended; [done|].
  intros Hloop. destruct (main_loop frames _) as [st1 [[]|e]]; by simplify_eq/=.
Qed.

Lemma frames_after_the_end_are_not_read_witness :
  (run [[QUIT]] (new_SimpleTest demo_map)).2 ≠ Done None
  ∧ run ([[QUIT]] ++ [[MOUSEBUTTONUP 7 0]]) (new_SimpleTest demo_map)
    = run [[QUIT]] (new_SimpleTest demo_map).
Proof.
  assert ((run [[QUIT]] (new_SimpleTest demo_map)).2 ≠ Done None) as Hend
    by (vm_compute; discriminate).
  split; [assumption|].
  apply (frames_after_the_end_are_not_read [[QUIT]] [[MOUSEBUTTONUP 7 0]]).
  assumption.
Defined.

(** * Further properties of a click *)

(** X4: without a layer named "Sprite Layer" or without one named
    "World Layer" every click raises ValueError and changes nothing. *)
Theorem click_with_missing_layer_raises st x y :
  layernames (tmx_data st) !! "Sprite Layer" = None
  ∨ layernames (tmx_data st) !! "World Layer" = None →
  handle_event (MOUSEBUTTONUP x y) st = (st, Raised ValueError).
Proof.
  intros Hmissing. cbn [handle_event]. rewrite on_mouse_button_up_eq.
  destruct (layernames (tmx_data st) !! "Sprite Layer") as [layer|]; [|done].
  destruct Hmissing as [?|Hw]; [done|].
  unfold terrain_outcome. by rewrite Hw.
Qed.

Lemma click_with_missing_layer_raises_witness :
  layernames (tmx_data (new_SimpleTest two_modes)) !! "Sprite Layer" = None
  ∧ handle_event (MOUSEBUTTONUP 0 0) (new_SimpleTest two_modes)
    = (new_SimpleTest two_modes, Raised ValueError).
Proof.
  assert (layernames (tmx_data (new_SimpleTest two_modes)) !! "Sprite Layer"
          = None) as Hn by (vm_compute; reflexivity).
  split; [assumption|].
  apply (click_with_missing_layer_raises (new_SimpleTest two_modes) 0 0).
  by left.
Defined.

(** X5: a click on a tile that the World Layer does not have, or, the
    terrain being there, that the sprite layer does not have, raises
    IndexError and changes nothing. *)
Theorem click_outside_the_map_raises st x y :
  is_Some (layernames (tmx_data st) !! "Sprite Layer") →
  is_Some (layernames (tmx_data st) !! "World Layer") →
  layer_cell (tmx_data st) "World Layer" y x = None
  ∨ (is_Some (terrain_at st y x) ∧ sprite_cell st y x = None) →
  handle_event (MOUSEBUTTONUP x y) st = (st, Raised IndexError).
Proof.
  intros [layer Hn] [w Hw] Hout. cbn [handle_event].
  rewrite on_mouse_button_up_eq, Hn.
  destruct (layernames_lookup _ _ _ Hn) as (l & Hl & _).
  destruct (layernames_lookup _ _ _ Hw) as (lw & Hlw & _).
  destruct Hout as [Hcell|[[t Ht] Hcell]].
  - unfold terrain_outcome, read_cell_outcome. rewrite Hw, Hlw.
    unfold layer_cell in Hcell. rewrite Hw in Hcell. simpl in Hcell.
    rewrite Hlw in Hcell. simpl in Hcell.
    destruct (py_index (data lw) y) as [row|]; [|done]. simpl in Hcell.
    by rewrite Hcell.
  - apply (terrain_outcome_Done (tmx_data st) st x y t eq_refl) in Ht.
    rewrite Ht, select_or_move_eq. unfold read_cell_outcome. rewrite Hl.
    unfold sprite_cell, layer_cell in Hcell. rewrite Hn in Hcell.
    simpl in Hcell. rewrite Hl in Hcell. simpl in Hcell.
    destruct (py_index (data l) y) as [row|]; [|done]. simpl in Hcell.
    by rewrite Hcell.
Qed.

Lemma click_outside_the_map_raises_witness :
  layer_cell (tmx_data (new_SimpleTest demo_map)) "World Layer" 0 3 = None
  ∧ handle_event (MOUSEBUTTONUP 3 0) (new_SimpleTest demo_map)
    = (new_SimpleTest demo_map, Raised IndexError).
Proof.
  assert (layer_cell (tmx_data (new_SimpleTest demo_map)) "World Layer" 0 3
          = None) as Hcell by (vm_compute; reflexivity).
  split; [assumption|].
  apply (click_outside_the_map_raises (new_SimpleTest demo_map) 3 0).
  - exists 1%nat. vm_compute. reflexivity.
  - exists 0%nat. vm_compute. reflexivity.
  - by left.
Defined.

(** X6: with nothing selected, a click on a free cell of the sprite layer
    whose tile has a terrain does nothing at all. *)
Theorem idle_click_on_free_tile_does_nothing st x y :
  truthy (selection st) = false →
  sprite_cell st y x = Some 0 →
  is_Some (terrain_at st y x) →
  handle_event (MOUSEBUTTONUP x y) st = (st, Done tt).
Proof.
  intros Hsel Hcell [t Ht]. cbn [handle_event]. rewrite on_mouse_button_up_eq.
  pose proof Hcell as Hcell'.
  apply layer_cell_Some in Hcell' as (layer & l & p & Hn & _). rewrite Hn.
  apply (terrain_outcome_Done (tmx_data st) st x y t eq_refl) in Ht. rewrite Ht.
  rewrite select_or_move_eq.
  apply (read_cell_outcome_Done _ _ layer) in Hcell; [|done].
  rewrite Hcell, Hsel. by rewrite decide_False by (intros ?; done).
Qed.

Lemma idle_click_on_free_tile_does_nothing_witness :
  (truthy (selection (new_SimpleTest demo_map)) = false
   ∧ sprite_cell (new_SimpleTest demo_map) 0 2 = Some 0)
  ∧ handle_event (MOUSEBUTTONUP 2 0) (new_SimpleTest demo_map)
    = (new_SimpleTest demo_map, Done tt).
Proof.
  assert (sprite_cell (new_SimpleTest demo_map) 0 2 = Some 0) as Hcell
    by (vm_compute; reflexivity).
  split; [by split|].
  apply (idle_click_on_free_tile_does_nothing (new_SimpleTest demo_map) 2 0);
    [reflexivity|assumption|].
  exists "grass". vm_compute. reflexivity.
Defined.

Lemma layers_change_only_by_a_move_witness :
  tmx_data (handle_event (MOUSEBUTTONUP 2 0) demo_selected).1
  ≠ tmx_data demo_selected
  ∧ truthy (selection demo_selected) = true
  ∧ sprite_cell demo_selected 0 2 = Some 0
  ∧ ∃ t, terrain_at demo_selected 0 2 = Some t
         ∧ t ≠ "water" ∧ t ≠ "mountains".
Proof.
  assert (tmx_data (handle_event (MOUSEBUTTONUP 2 0) demo_selected).1
          ≠ tmx_data demo_selected) as Hchanged by (vm_compute; discriminate).
  split; [assumption|].
  apply (layers_change_only_by_a_move demo_selected 2 0). assumption.
Defined.

(** ** Relating the store before and after *)

Section related.
Context (R : SimpleTest → SimpleTest → Prop).
Context (R_refl : ∀ st, R st st) (R_trans : ∀ a b c, R a b → R b c → R a c).

Lemma related_bind {A B : Type} (m : Act A) (k : A → Act B) :
  related R m → (∀ a, related R (k a)) → related R (bind m k).
Proof.
  intros Hm Hk st. rewrite bind_eq. specialize (Hm st).
  destruct (m st) as [st' [a|e]]; simpl in *; [|done].
  eapply R_trans; [done|]. apply Hk.
Qed.

Lemma related_pure {A : Type} (m : Act A) :
  unchanged (λ st, st) m → related R m.
Proof. intros Hm st. by rewrite Hm. Qed.

Lemma related_handle_events (evs : list Event) :
  (∀ ev, related R (handle_event ev)) → related R (handle_events evs).
Proof.
  intros Hev. induction evs as [|ev evs IH]; [intros st; apply R_refl|].
  simpl. apply related_bind; [apply Hev|done].
Qed.

Lemma related_main_loop frames :
  (∀ ev, related R (handle_event ev)) → related R (main_loop frames).
Proof.
  intros Hev. induction frames as [|evs frames IH]; intros st;
    rewrite main_loop_eq; destruct (running st); try apply R_refl.
  apply related_bind; [by apply related_handle_events|intros _].
  apply related_bind; [|done]. intros st1. apply R_refl.
Qed.
End related.

(** What a store [write_cell] can end in. *)
Lemma write_cell_cases ref y (col : Act value) v st :
  (∀ st0, (col st0).1 = st0) →
  (write_cell ref y col v st).1 = st
  ∨ ∃ l rows',
      layers (tmx_data st) !! ref = Some l
      ∧ (write_cell ref y col v st).1
        = (set_layers (<[ref := {| layer_name := layer_name l;
                                   data := rows' |}]>
                         (layers (tmx_data st))) st).1.
Proof.
  intros Hcol. unfold write_cell, layer_data.
  rewrite bind_eq, bind_eq, get_run, try_opt_run.
  destruct (layers (tmx_data st) !! ref) as [l|] eqn:Hl; simpl; [|by left].
  rewrite bind_eq. destruct y as [|yi|]; try by left. simpl.
  rewrite bind_eq, try_opt_run.
  destruct (norm_index (length (data l)) yi) as [r|]; simpl; [|by left].
  rewrite bind_eq, try_opt_run.
  destruct (data l !! r) as [row|]; simpl; [|by left].
  rewrite bind_eq. pose proof (Hcol st) as Hst.
  destruct (col st) as [st1 [xv|e]]; simpl in Hst; subst st1; [|by left].
  rewrite bind_eq. destruct xv as [|xi|]; try by left. simpl.
  rewrite bind_eq, try_opt_run.
  destruct (norm_index (length row) xi) as [c|]; simpl; [|by left].
  rewrite bind_eq. destruct v as [|g|]; try by left. simpl.
  rewrite bind_eq, get_run, bind_eq, try_opt_run, Hl. simpl.
  right. by exists l, (<[r := <[c := g]> row]> (data l)).
Qed.

Lemma layer_rewritten_refl ref tm : layer_rewritten ref tm tm.
Proof. done. Qed.

Lemma layer_rewritten_trans ref tm1 tm2 tm3 :
  layer_rewritten ref tm1 tm2 → layer_rewritten ref tm2 tm3 →
  layer_rewritten ref tm1 tm3.
Proof.
  intros (Hp1 & Hn1 & Ho1) (Hp2 & Hn2 & Ho2). repeat split; try congruence.
  intros j Hj. by rewrite Ho2, Ho1.
Qed.

Lemma related_write_cell ref y (col : Act value) v :
  (∀ st0, (col st0).1 = st0) →
  related (λ st st', layer_rewritten ref (tmx_data st) (tmx_data st'))
    (write_cell ref y col v).
Proof.
  intros Hcol st.
  destruct (write_cell_cases ref y col v st Hcol) as [->|(l & rows' & Hl & ->)];
    [done|].
  unfold layer_rewritten, set_layers.
  cbn [fst tmx_data layers tile_properties]. repeat split.
  - rewrite list_fmap_insert. cbn [layer_name]. apply list_insert_id.
    by rewrite list_lookup_fmap, Hl.
  - intros j Hj. by apply list_lookup_insert_ne.
Qed.

Lemma related_move_selection ref x y :
  related (λ st st', layer_rewritten ref (tmx_data st) (tmx_data st'))
    (move_selection ref x y).
Proof.
  unfold move_selection.
  repeat lazymatch goal with
  | |- related _ (bind _ _) =>
      apply related_bind;
        [intros ???; by apply layer_rewritten_trans| |intros ?]
  | |- related _ (get _) => apply related_pure; [done|apply unchanged_get]
  | |- related _ (getitem _ _) =>
      apply related_pure; [done|apply unchanged_getitem]
  | |- related _ (write_cell _ _ _ _) => apply related_write_cell
  | |- related _ (set_selection _) => by intros st
  end.
  - done.
  - intros st0. rewrite bind_eq, get_run.
    apply (unchanged_getitem (λ st, st)).
Qed.

(** A store whose sprite layer alone was rewritten has the world it had. *)
Lemma layer_rewritten_same_world ref st st' :
  layernames (tmx_data st) !! "Sprite Layer" = Some ref →
  layer_rewritten ref (tmx_data st) (tmx_data st') →
  same_world st st'.
Proof.
  intros Hn (Hprops & Hnames & Hother).
  assert (layernames (tmx_data st') = layernames (tmx_data st)) as Hln
    by by apply add_layers_ext.
  repeat split; [done..|]. intros y x. unfold layer_cell. rewrite Hln.
  destruct (layernames (tmx_data st) !! "World Layer") as [w|] eqn:Hw; [|done].
  simpl. rewrite Hother; [done|]. intros ->.
  destruct (layernames_lookup _ _ _ Hn) as (l & Hl & Hname).
  destruct (layernames_lookup _ _ _ Hw) as (l' & Hl' & Hname').
  rewrite Hl in Hl'. simplify_eq. rewrite Hname in Hname'. discriminate.
Qed.

Lemma same_world_trans st1 st2 st3 :
  same_world st1 st2 → same_world st2 st3 → same_world st1 st3.
Proof.
  intros (Hn1 & Hp1 & Hc1) (Hn2 & Hp2 & Hc2). repeat split; congruence.
Qed.

Lemma same_world_handle_event ev :
  related same_world (handle_event ev).
Proof.
  intros st. destruct ev as [|key| |x y|]; try done.
  { simpl. by case_decide. }
  cbn [handle_event]. rewrite on_mouse_button_up_eq.
  destruct (layernames (tmx_data st) !! "Sprite Layer") as [layer|] eqn:Hn;
    [|done].
  destruct (terrain_outcome (tmx_data st) x y) as [t|e]; [|done].
  rewrite select_or_move_eq.
  destruct (read_cell_outcome (tmx_data st) layer y x) as [here|e]; [|done].
  destruct (truthy (selection st)); repeat case_decide; try done.
  apply (layer_rewritten_same_world layer); [done|].
  apply related_move_selection.
Qed.

(** X7: no event, and no run of the loop, changes the World Layer, the
    tile properties or the names of the layers, whether it completes or
    raises; so the terrain of every tile stays what it was. *)
Theorem world_never_changes :
  (∀ ev st, same_world st (handle_event ev st).1)
  ∧ (∀ frames st, same_world st (run frames st).1)
  ∧ (∀ ev st y x, terrain_at (handle_event ev st).1 y x = terrain_at st y x).
Proof.
  assert (∀ st, same_world st st) as Hrefl by done.
  split; [apply same_world_handle_event|]. split.
  - intros frames st. rewrite run_eq.
    pose proof (related_main_loop same_world Hrefl same_world_trans frames
                  same_world_handle_event
                  ((set_running true;;; set_exit_status 1) st).1) as Hloop.
    by destruct (main_loop frames _) as [st' [[]|e]].
  - intros ev st y x.
    destruct (same_world_handle_event ev st) as (_ & Hprops & Hcells).
    unfold terrain_at, get_tile_properties_by_gid. by rewrite Hcells, Hprops.
Qed.

(** ** What a click does in a reachable state *)

(** In a reachable state a click raises before it writes, or does
    nothing, or selects the clicked sprite, or moves the selected one. *)
Lemma reachable_click_cases st x y :
  reachable st →
  (∃ e, on_mouse_button_up x y st = (st, Raised e))
  ∨ on_mouse_button_up x y st = (st, Done tt)
  ∨ (∃ g, g ≠ 0 ∧ sprite_cell st y x = Some g
          ∧ on_mouse_button_up x y st = set_selection (triple x y g) st)
  ∨ (∃ ref l p q gid,
       layers (tmx_data st) !! ref = Some l
       ∧ cell_at (data l) p = Some 0 ∧ cell_at (data l) q = Some gid
       ∧ gid ≠ 0
       ∧ on_mouse_button_up x y st = (after_move st ref l p q gid, Done tt)).
Proof.
  intros Hinv%reachable_selection_inv.
  pose proof (on_mouse_button_up_eq x y st) as Heq.
  destruct (layernames (tmx_data st) !! "Sprite Layer") as [layer|] eqn:Hn;
    [|left; by eauto].
  destruct (terrain_outcome (tmx_data st) x y) as [t|e] eqn:Ht;
    [|left; by eauto].
  rewrite select_or_move_eq in Heq.
  destruct (read_cell_outcome (tmx_data st) layer y x) as [here|e] eqn:Hr;
    [|left; by eauto].
  apply (read_cell_outcome_Done _ "Sprite Layer") in Hr; [|done].
  apply (terrain_outcome_Done (tmx_data st) st x y t eq_refl) in Ht.
  destruct (truthy (selection st)) eqn:Htr.
  - destruct Hinv as [Hnone|(sx & sy & gid & Hsel & Hnz & Hsrc)].
    { by rewrite Hnone in Htr. }
    repeat case_decide; try (right; left; done).
    subst here.
    destruct (move_click_run st x y sx sy gid t)
      as (ref & l & p & q & _ & Hl & _ & Hcp & _ & Hcq & _ & Hrun);
      [right; by eauto 10|done..|].
    do 3 right. exists ref, l, p, q, gid. by repeat split.
  - case_decide; [|right; left; done].
    right. right. left. exists here. by repeat split.
Qed.

(** ** Counting the cells *)

Lemma occurrences_insert_row (v : Z) (row : list Z) c a b :
  row !! c = Some a →
  (length (filter (λ z, z = v) (<[c := b]> row))
   + (if decide (a = v) then 1 else 0)
   = length (filter (λ z, z = v) row) + (if decide (b = v) then 1 else 0))%nat.
Proof.
  intros Hc. pose proof (lookup_lt_Some _ _ _ Hc) as Hlt.
  rewrite insert_take_drop by done.
  rewrite <- (take_drop_middle row c a Hc) at 3.
  rewrite !filter_app, !filter_cons, !length_app.
  repeat case_decide; simpl; lia.
Qed.

Lemma occurrences_set_cell v rows p a b :
  cell_at rows p = Some a →
  (occurrences v (set_cell rows p b) + (if decide (a = v) then 1 else 0)
   = occurrences v rows + (if decide (b = v) then 1 else 0))%nat.
Proof.
  destruct p as [r c]. unfold cell_at, set_cell, occurrences. simpl.
  destruct (rows !! r) as [row|] eqn:Hrow; [|done]. simpl. intros Hc.
  pose proof (lookup_lt_Some _ _ _ Hrow) as Hlt.
  rewrite insert_take_drop by done.
  rewrite <- (take_drop_middle rows r row Hrow) at 3.
  rewrite !concat_app, !concat_cons, !filter_app, !length_app.
  pose proof (occurrences_insert_row v row c a b Hc). lia.
Qed.

Lemma shape_set_cell rows p b :
  length <$> set_cell rows p b = length <$> rows.
Proof.
  destruct p as [r c]. unfold set_cell. simpl.
  destruct (rows !! r) as [row|] eqn:Hrow; [|done].
  rewrite list_fmap_insert, length_insert. apply list_insert_id.
  by rewrite list_lookup_fmap, Hrow.
Qed.

(** A move rearranges the cells of its layer. *)
Lemma rearranged_layer_move l p q gid :
  cell_at (data l) p = Some 0 → cell_at (data l) q = Some gid → gid ≠ 0 →
  rearranged_layer l
    {| layer_name := layer_name l;
       data := set_cell (set_cell (data l) p gid) q 0 |}.
Proof.
  intros Hp Hq Hnz. split; [done|]. split.
  { simpl. by rewrite !shape_set_cell. }
  intros v. simpl.
  assert (p ≠ q) as Hpq by (intros ->; congruence).
  assert (cell_at (set_cell (data l) p gid) q = Some gid) as Hq'.
  { rewrite cell_at_set_cell by by rewrite Hp. by rewrite decide_False. }
  pose proof (occurrences_set_cell v (data l) p 0 gid Hp).
  pose proof (occurrences_set_cell v (set_cell (data l) p gid) q gid 0 Hq').
  lia.
Qed.

Lemma rearranged_layer_refl l : rearranged_layer l l.
Proof. done. Qed.

Lemma rearranged_refl tm : rearranged tm tm.
Proof.
  split; [done|]. apply Forall_Forall2_diag, Forall_forall.
  intros l _. apply rearranged_layer_refl.
Qed.

Lemma rearranged_trans tm1 tm2 tm3 :
  rearranged tm1 tm2 → rearranged tm2 tm3 → rearranged tm1 tm3.
Proof.
  intros [Hp1 Hl1] [Hp2 Hl2]. split; [congruence|].
  eapply Forall2_trans; [|done..].
  intros l1 l2 l3 (Hn1 & Hs1 & Ho1) (Hn2 & Hs2 & Ho2).
  repeat split; congruence.
Qed.

Lemma rearranged_after_move st ref l p q gid :
  layers (tmx_data st) !! ref = Some l →
  cell_at (data l) p = Some 0 → cell_at (data l) q = Some gid → gid ≠ 0 →
  rearranged (tmx_data st) (tmx_data (after_move st ref l p q gid)).
Proof.
  intros Hl Hp Hq Hnz. split; [done|]. simpl.
  rewrite <- (list_insert_id (layers (tmx_data st)) ref l Hl) at 1.
  apply Forall2_insert; [|by apply rearranged_layer_move].
  apply Forall_Forall2_diag, Forall_forall. intros l' _.
  apply rearranged_layer_refl.
Qed.

(** In a reachable state every event ends in a reachable state whose map
    is the old one rearranged; an event that raises ends in the state it
    started from. *)
Lemma reachable_handle_event ev st :
  reachable st →
  reachable (handle_event ev st).1
  ∧ rearranged (tmx_data st) (tmx_data (handle_event ev st).1)
  ∧ (∀ e, (handle_event ev st).2 = Raised e → (handle_event ev st).1 = st).
Proof.
  intros Hreach.
  assert (∀ st', handle_event ev st = (st', Done tt) →
                 tmx_data st' = tmx_data st →
                 reachable (handle_event ev st).1
                 ∧ rearranged (tmx_data st) (tmx_data (handle_event ev st).1)
                 ∧ (∀ e, (handle_event ev st).2 = Raised e →
                         (handle_event ev st).1 = st)) as Hsame.
  { intros st' Hev Htm. rewrite Hev. simpl. split; [by eapply reach_event|].
    split; [|done]. rewrite Htm. apply rearranged_refl. }
  destruct ev as [|key| |x y|]; try (by eapply Hsame).
  { destruct (decide (key = K_ESCAPE)) as [Hkey|Hkey].
    - apply (Hsame ((set_exit_status 0;;; set_running false) st).1);
        [simpl; by rewrite decide_True|done].
    - apply (Hsame st); [simpl; by rewrite decide_False|done]. }
  cbn [handle_event] in *.
  destruct (reachable_click_cases st x y Hreach)
    as [[e Hev]|[Hev|[(g & _ & _ & Hev)|(ref & l & p & q & gid & Hl & Hp & Hq
                                         & Hnz & Hev)]]].
  - rewrite Hev. simpl. split; [done|]. split; [apply rearranged_refl|done].
  - by eapply (Hsame st).
  - by eapply (Hsame (set_selection (triple x y g) st).1).
  - rewrite Hev. simpl. split.
    { by apply (reach_event st (MOUSEBUTTONUP x y)). }
    split; [by apply rearranged_after_move|done].
Qed.

(** X8: in a reachable state no event raises half-way: an event that
    raises leaves the whole store as it was. *)
Theorem reachable_raise_changes_nothing st ev st' e :
  reachable st →
  handle_event ev st = (st', Raised e) →
  st' = st.
Proof.
  intros Hreach Hev.
  destruct (reachable_handle_event ev st Hreach) as (_ & _ & Hraise).
  rewrite Hev in Hraise. by apply (Hraise e).
Qed.

Lemma reachable_raise_changes_nothing_witness :
  (reachable demo_selected
   ∧ handle_event (MOUSEBUTTONUP 2 1) demo_selected
     = (demo_selected, Raised TypeError))
  ∧ demo_selected = demo_selected.
Proof.
  assert (handle_event (MOUSEBUTTONUP 2 1) demo_selected
          = (demo_selected, Raised TypeError)) as Hev
    by (vm_compute; reflexivity).
  split; [split; [apply demo_selected_reachable|assumption]|].
  apply (reachable_raise_changes_nothing demo_selected (MOUSEBUTTONUP 2 1)
           demo_selected TypeError);
    [apply demo_selected_reachable|assumption].
Defined.

(** X9: in a reachable state, an event, and a whole run of the loop,
    rearranges the map and no more: every layer keeps its name, the lengths
    of its rows and the number of cells that hold any given gid, so no
    sprite is lost or doubled. *)
Theorem events_rearrange_the_map st :
  reachable st →
  (∀ ev, rearranged (tmx_data st) (tmx_data (handle_event ev st).1))
  ∧ (∀ frames, rearranged (tmx_data st) (tmx_data (run frames st).1)).
Proof.
  intros Hreach. split.
  { intros ev. by apply reachable_handle_event. }
  intros frames. rewrite run_eq.
  set (R := λ a b : SimpleTest,
              reachable a → reachable b ∧ rearranged (tmx_data a) (tmx_data b)).
  assert (related R (main_loop frames)) as Hloop.
  { apply related_main_loop.
    - intros a Ha. split; [done|apply rearranged_refl].
    - intros a b c Hab Hbc Ha. destruct (Hab Ha) as [Hb Hrab].
      destruct (Hbc Hb) as [Hc Hrbc]. split; [done|].
      by eapply rearranged_trans.
    - intros ev a Ha. by destruct (reachable_handle_event ev a Ha) as (?&?&_). }
  specialize (Hloop ((set_running true;;; set_exit_status 1) st).1
                (reach_run st Hreach)) as [_ Hrun].
  by destruct (main_loop frames _) as [st' [[]|e]].
Qed.

Lemma events_rearrange_the_map_witness :
  reachable demo_selected
  ∧ (∀ ev, rearranged (tmx_data demo_selected)
             (tmx_data (handle_event ev demo_selected).1))
  ∧ (∀ frames, rearranged (tmx_data demo_selected)
                 (tmx_data (run frames demo_selected).1)).
Proof.
  split; [apply demo_selected_reachable|].
  apply (events_rearrange_the_map demo_selected).
  apply demo_selected_reachable.
Defined.

(** * Further properties of the index builders *)

Lemma foldl_spawn_keeps items (acc : gmap string Z) s :
  (∀ entry, entry ∈ items → entry.2 !! "spawn" ≠ Some s) →
  foldl spawn_step acc items !! s = acc !! s.
Proof.
  revert acc. induction items as [|entry items IH]; intros acc Hno; [done|].
  simpl. rewrite IH.
  - unfold spawn_step.
    destruct (entry.2 !! "spawn") as [s'|] eqn:Hs; [|done].
    rewrite lookup_insert_ne; [done|]. intros ->.
    by apply (Hno entry); [apply list_elem_of_here|].
  - intros entry' Hin. apply Hno. by apply list_elem_of_further.
Qed.

(** X10: when several tiles have the same "spawn" value, the spawn index
    keeps the gid of the last of them. *)
Theorem build_spawn_index_last_wins tm pre gid props post s :
  tile_properties tm = pre ++ (gid, props) :: post →
  props !! "spawn" = Some s →
  (∀ entry, entry ∈ post → entry.2 !! "spawn" ≠ Some s) →
  build_spawn_index tm !! s = Some gid.
Proof.
  intros Hitems Hs Hpost. unfold build_spawn_index.
  rewrite Hitems, foldl_app. simpl.
  rewrite foldl_spawn_keeps by done.
  unfold spawn_step at 1. simpl. rewrite Hs. apply lookup_insert_eq.
Qed.

Lemma build_spawn_index_last_wins_witness :
  build_spawn_index
    {| layers := [];
       tile_properties :=
         [(4, {[ "spawn" := "red" ]})]
         ++ (9, {[ "spawn" := "red" ]}) :: [(6, {[ "spawn" := "blue" ]})] |}
  !! "red" = Some 9.
Proof.
  apply (build_spawn_index_last_wins _ [(4, {[ "spawn" := "red" ]})] 9
           {[ "spawn" := "red" ]} [(6, {[ "spawn" := "blue" ]})] "red").
  - reflexivity.
  - vm_compute. reflexivity.
  - intros entry Hin%list_elem_of_singleton. subst entry.
    vm_compute. discriminate.
Defined.

Lemma character_loop_filter items characters :
  character_loop characters
    (filter (λ entry, is_Some (entry.2 !! "team")
                      ∧ is_Some (entry.2 !! "character")
                      ∧ is_Some (entry.2 !! "mode")) items)
  = character_loop characters items.
Proof.
  revert characters. induction items as [|[gid props] items IH];
    intros characters; [done|].
  rewrite filter_cons. destruct (decide _) as [Hfull|Hskip];
    cbn [character_loop].
  - destruct (character_step characters (gid, props)); [apply IH|done].
  - rewrite IH.
    assert (character_step characters (gid, props) = Done characters) as ->;
      [|done].
    unfold character_step. simpl in Hskip.
    destruct (props !! "team") as [t|] eqn:Ht;
      destruct (props !! "character") as [n|] eqn:Hc;
      destruct (props !! "mode") as [m|] eqn:Hm; try done.
    by destruct Hskip.
Qed.

(** X11: tiles that lack one of "team", "character" and "mode" count for
    nothing in the character index: the builder gives what it gives on the
    tiles that have all three, the same index or the same exception. *)
Theorem build_character_index_skips tm :
  build_character_index tm
  = build_character_index
      {| layers := layers tm;
         tile_properties :=
           filter (λ entry, is_Some (entry.2 !! "team")
                            ∧ is_Some (entry.2 !! "character")
                            ∧ is_Some (entry.2 !! "mode"))
             (tile_properties tm) |}.
Proof. unfold build_character_index. simpl. by rewrite character_loop_filter. Qed.

(** One tile that has the three keys, of a character not named like its
    team, starts the character's dictionary afresh with the tile's mode. *)
Lemma character_step_resets characters gid props t n m :
  props !! "team" = Some t → props !! "character" = Some n →
  props !! "mode" = Some m → n ≠ t →
  no_team_key characters →
  ∃ characters',
    character_step characters (gid, props) = Done characters'
    ∧ no_team_key characters'
    ∧ ∀ team name mode,
        character_gid characters' team name mode
        = if decide (t = team ∧ n = name)
          then (if decide (m = mode) then Some gid else None)
          else character_gid characters team name mode.
Proof.
  intros Ht Hn Hm Hne Hinv. unfold character_step. rewrite Ht, Hn, Hm.
  set (characters1 := match characters !! t with
                      | None => <[t := ∅]> characters
                      | Some _ => characters
                      end).
  set (of_team := default ∅ (characters1 !! t)).
  assert (of_team !! t = None) as Hfree.
  { unfold of_team, characters1.
    destruct (characters !! t) as [o|] eqn:Ho.
    - rewrite Ho. simpl. by eapply Hinv.
    - by rewrite lookup_insert_eq. }
  assert (∀ team, team ≠ t → characters1 !! team = characters !! team) as Hother.
  { intros team Hteam. unfold characters1.
    destruct (characters !! t); [done|]. by rewrite lookup_insert_ne. }
  assert (∀ name, of_team !! name
                  = (o ← characters !! t; o !! name)) as Hof.
  { intros name. unfold of_team, characters1.
    destruct (characters !! t) as [o|] eqn:Ho.
    - by rewrite Ho.
    - by rewrite lookup_insert_eq. }
  rewrite Hfree, lookup_insert_eq.
  eexists. split; [done|]. split.
  - intros team o Ho. destruct (decide (team = t)) as [->|Hteam].
    + rewrite lookup_insert_eq in Ho. simplify_eq.
      by rewrite !lookup_insert_ne.
    + rewrite lookup_insert_ne, Hother in Ho by done. by eapply Hinv.
  - intros team name mode. unfold character_gid.
    destruct (decide (team = t)) as [->|Hteam].
    + rewrite lookup_insert_eq. simpl.
      destruct (decide (name = n)) as [->|Hname].
      * rewrite lookup_insert_eq, decide_True by done. simpl.
        destruct (decide (m = mode)) as [->|Hmode].
        -- by rewrite lookup_insert_eq.
        -- by rewrite lookup_insert_ne.
      * rewrite !lookup_insert_ne by done.
        rewrite decide_False by (intros [_ ->]; done).
        rewrite Hof. by destruct (characters !! t).
    + rewrite lookup_insert_ne, Hother by done.
      by rewrite decide_False by (intros [-> _]; done).
Qed.

Lemma character_loop_last_tile items characters :
  (∀ entry t, entry ∈ items → entry.2 !! "team" = Some t →
              entry.2 !! "character" ≠ Some t) →
  no_team_key characters →
  ∃ characters',
    character_loop characters items = Done characters'
    ∧ ∀ team name mode,
        character_gid characters' team name mode
        = match last_tile_of items team name with
          | Some (m, gid) => if decide (m = mode) then Some gid else None
          | None => character_gid characters team name mode
          end.
Proof.
  revert characters. induction items as [|[gid props] items IH];
    intros characters Hitems Hinv; [by eexists|].
  assert (∀ entry t, entry ∈ items → entry.2 !! "team" = Some t →
                     entry.2 !! "character" ≠ Some t) as Hrest.
  { intros entry t Hin. apply Hitems. by apply list_elem_of_further. }
  cbn [character_loop last_tile_of].
  destruct (props !! "team") as [t|] eqn:Ht;
    destruct (props !! "character") as [n|] eqn:Hn;
    destruct (props !! "mode") as [m|] eqn:Hm.
  1: {
    assert (n ≠ t) as Hne.
    { intros ->. by apply (Hitems (gid, props) t); [apply list_elem_of_here|..]. }
    destruct (character_step_resets characters gid props t n m)
      as (characters1 & -> & Hinv1 & Hgid1); [done..|].
    destruct (IH characters1 Hrest Hinv1) as (characters' & -> & Hgid).
    exists characters'. split; [done|]. intros team name mode.
    rewrite Hgid, Hgid1.
    destruct (last_tile_of items team name) as [[m' g']|]; [done|].
    by destruct (decide (t = team ∧ n = name)). }
  all: assert (character_step characters (gid, props) = Done characters) as ->
    by (unfold character_step; by rewrite ?Ht, ?Hn, ?Hm).
  all: destruct (IH characters Hrest Hinv) as (characters' & -> & Hgid).
  all: exists characters'; split; [done|]; intros team name mode.
  all: rewrite Hgid; by destruct (last_tile_of items team name) as [[m' g']|].
Qed.

(** X12: when no character bears the name of its team, the builder of the
    character index raises nothing, and the index it returns has, for
    every character, the mode of the character's last tile and no other:
    [characters[team][name][mode]] is that tile's gid for that mode and
    is missing for every other mode. *)
Theorem build_character_index_last_tile tm :
  (∀ entry t, entry ∈ tile_properties tm → entry.2 !! "team" = Some t →
              entry.2 !! "character" ≠ Some t) →
  ∃ characters,
    build_character_index tm = Done characters
    ∧ ∀ team name mode,
        character_gid characters team name mode
        = match last_tile_of (tile_properties tm) team name with
          | Some (m, gid) => if decide (m = mode) then Some gid else None
          | None => None
          end.
Proof.
  intros Hitems.
  destruct (character_loop_last_tile (tile_properties tm) ∅ Hitems)
    as (characters & Hloop & Hgid); [done|].
  exists characters. split; [done|]. intros team name mode.
  rewrite Hgid. by destruct (last_tile_of _ team name) as [[m g]|].
Qed.

Lemma build_character_index_last_tile_witness :
  ∃ characters,
    build_character_index two_modes = Done characters
    ∧ ∀ team name mode,
        character_gid characters team name mode
        = match last_tile_of (tile_properties two_modes) team name with
          | Some (m, gid) => if decide (m = mode) then Some gid else None
          | None => None
          end.
Proof.
  apply (build_character_index_last_tile two_modes).
  intros entry t Hin Ht.
  apply elem_of_cons in Hin as [->|Hin];
    [|apply list_elem_of_singleton in Hin as ->];
    vm_compute in Ht; injection Ht as <-; vm_compute; discriminate.
Defined.

(** * The per-map set-up *)

Lemma character_of_run characters color name mode st :
  character_of characters color name mode st
  = (st, opt_outcome KeyError (character_gid characters color name mode)).
Proof.
  unfold character_of, character_gid. rewrite bind_eq, try_opt_run.
  destruct (characters !! color) as [of_team|]; simpl; [|done].
  rewrite bind_eq, try_opt_run.
  destruct (of_team !! name) as [modes|]; simpl; [|done].
  apply try_opt_run.
Qed.

Lemma put_tile_run tile place g st :
  tile_place (tmx_data st) tile = Some place →
  put_tile tile g st = (with_map st (put_place (tmx_data st) place g), Done tt).
Proof.
  destruct tile as [[x y] layer]. unfold tile_place, put_tile. intros Hplace.
  destruct (norm_index (length (layers (tmx_data st))) layer) as [ref|] eqn:Hr;
    simplify_eq/=.
  destruct (layers (tmx_data st) !! ref) as [l|] eqn:Hl; simplify_eq/=.
  destruct (position (data l) y x) as [p|] eqn:Hp; simplify_eq/=.
  rewrite bind_eq, get_run, bind_eq, try_opt_run, Hr. simpl.
  rewrite (write_cell_run st ref l y x g p) by done.
  unfold set_layers, with_map, put_place. simpl. by rewrite Hl.
Qed.

Lemma tile_place_cell tm tile place :
  tile_place tm tile = Some place → is_Some (place_cell tm place).
Proof.
  destruct tile as [[x y] layer]. unfold tile_place, place_cell. intros Hplace.
  destruct (norm_index (length (layers tm)) layer) as [ref|]; simplify_eq/=.
  destruct (layers tm !! ref) as [l|] eqn:Hl; simplify_eq/=.
  destruct (position (data l) y x) as [p|] eqn:Hp; simplify_eq/=.
  rewrite Hl. simpl. by eapply position_cell.
Qed.

Lemma place_cell_put_place tm place g place' :
  is_Some (place_cell tm place) →
  place_cell (put_place tm place g) place'
  = if decide (place' = place) then Some g else place_cell tm place'.
Proof.
  destruct place as [ref p], place' as [ref' p'].
  unfold place_cell, put_place. simpl.
  destruct (layers tm !! ref) as [l|] eqn:Hl; [|by intros [? [=]]].
  simpl. intros Hcell.
  pose proof (lookup_lt_Some _ _ _ Hl) as Hlt.
  destruct (decide (ref' = ref)) as [->|Href].
  - rewrite list_lookup_insert_eq by done. simpl.
    rewrite cell_at_set_cell by done. rewrite Hl. simpl.
    destruct (decide (p' = p)) as [->|Hp].
    + by rewrite decide_True.
    + by rewrite decide_False by congruence.
  - rewrite list_lookup_insert_ne by done.
    by rewrite decide_False by congruence.
Qed.

Lemma tile_place_put_place tm place g tile :
  tile_place (put_place tm place g) tile = tile_place tm tile.
Proof.
  destruct place as [ref p], tile as [[x y] layer].
  unfold tile_place, put_place. simpl.
  destruct (layers tm !! ref) as [l|] eqn:Hl; [|done]. simpl.
  rewrite length_insert.
  destruct (norm_index (length (layers tm)) layer) as [ref'|]; [|done]. simpl.
  destruct (decide (ref' = ref)) as [->|Href].
  - rewrite list_lookup_insert_eq by by eapply lookup_lt_Some.
    rewrite Hl. simpl. by rewrite position_set_cell.
  - by rewrite list_lookup_insert_ne.
Qed.

Lemma clear_tiles_run tiles places st :
  Forall2 (λ tile place, tile_place (tmx_data st) tile = Some place)
    tiles places →
  ∃ tm, clear_tiles tiles st = (with_map st tm, Done tt)
        ∧ (∀ tile, tile_place tm tile = tile_place (tmx_data st) tile)
        ∧ ∀ place, place_cell tm place
                   = if decide (place ∈ places) then Some 0
                     else place_cell (tmx_data st) place.
Proof.
  intros Hplaces. revert tiles st Hplaces.
  induction places as [|place0 places IH]; intros tiles st Hplaces.
  - apply Forall2_nil_inv_r in Hplaces as ->. exists (tmx_data st).
    split; [by destruct st|]. split; [done|]. intros place.
    by rewrite decide_False by apply not_elem_of_nil.
  - apply Forall2_cons_inv_r in Hplaces
      as (tile0 & tiles' & Hplace0 & Hrest & ->).
    cbn [clear_tiles]. rewrite bind_eq, (put_tile_run tile0 place0) by done.
    set (st1 := with_map st (put_place (tmx_data st) place0 0)).
    destruct (IH tiles' st1) as (tm & Hrun & Htiles & Hcells).
    { apply (Forall2_impl _ _ _ _ Hrest). intros tile place Hplace. simpl.
      by rewrite tile_place_put_place. }
    exists tm. split; [by rewrite Hrun|]. split.
    { intros tile. rewrite Htiles. simpl. apply tile_place_put_place. }
    intros place. rewrite Hcells. simpl.
    rewrite place_cell_put_place by by eapply tile_place_cell.
    destruct (decide (place = place0)) as [->|Hne].
    + rewrite (decide_True (P := place0 ∈ place0 :: places))
        by apply list_elem_of_here.
      by case_decide.
    + destruct (decide (place ∈ places)) as [Hin|Hnin].
      * by rewrite decide_True by by apply list_elem_of_further.
      * rewrite decide_False; [done|].
        intros [?|?]%elem_of_cons; done.
Qed.

Lemma py_index_first {A : Type} (a : A) (l : list A) :
  py_index (a :: l) 0 = Some a.
Proof.
  unfold py_index, norm_index. rewrite decide_True by lia.
  rewrite decide_True by (simpl; lia). done.
Qed.

Lemma py_index_second {A : Type} (a b : A) (l : list A) :
  py_index (a :: b :: l) 1 = Some b.
Proof.
  unfold py_index, norm_index. rewrite decide_True by lia.
  rewrite decide_True by (simpl; lia). done.
Qed.

Lemma place_characters_no_dudess characters color tiles st :
  tiles ≠ [] →
  character_gid characters color "dudess" "idle" = None →
  place_characters characters color tiles st = (st, Raised KeyError).
Proof.
  intros Htiles Hnone. destruct tiles as [|tile tiles]; [done|].
  unfold place_characters. by rewrite bind_eq, character_of_run, Hnone.
Qed.

(** X13: when the character index has no "idle" tile of the "dudess" of a
    colour whose spawn gid is on the map, the set-up raises KeyError
    before it writes anything. *)
Theorem set_up_without_dudess_raises characters color tiles st :
  tiles ≠ [] →
  character_gid characters color "dudess" "idle" = None →
  place_characters characters color tiles st = (st, Raised KeyError).
Proof. apply place_characters_no_dudess. Qed.

Lemma set_up_without_dudess_raises_witness :
  character_gid red_team "blue" "dudess" "idle" = None
  ∧ place_characters red_team "blue" [(0, 0, 0)] (new_SimpleTest spawn_map)
    = (new_SimpleTest spawn_map, Raised KeyError).
Proof.
  assert (character_gid red_team "blue" "dudess" "idle" = None) as Hnone
    by (vm_compute; reflexivity).
  split; [assumption|].
  apply (set_up_without_dudess_raises red_team "blue" [(0, 0, 0)]);
    [discriminate|assumption].
Defined.



(** X15: with two or more locations of the spawn gid and both "idle"
    tiles in the index, the set-up of a colour completes; afterwards the
    first location holds the "dudess", the second the "dude", every
    further location 0 (a later write winning where locations repeat), and
    every other cell of the map what it held. *)
Theorem set_up_places_two_characters characters color tiles st
    place0 place1 places dudess dude :
  character_gid characters color "dudess" "idle" = Some dudess →
  character_gid characters color "dude" "idle" = Some dude →
  Forall2 (λ tile place, tile_place (tmx_data st) tile = Some place)
    tiles (place0 :: place1 :: places) →
  ∃ tm,
    place_characters characters color tiles st = (with_map st tm, Done tt)
    ∧ ∀ place,
        place_cell tm place
        = if decide (place ∈ places) then Some 0
          else if decide (place = place1) then Some dude
          else if decide (place = place0) then Some dudess
          else place_cell (tmx_data st) place.
Proof.
  intros Hdudess Hdude Htiles.
  apply Forall2_cons_inv_r in Htiles as (tile0 & tiles0 & Hp0 & Htiles & ->).
  apply Forall2_cons_inv_r in Htiles as (tile1 & tiles1 & Hp1 & Htiles & ->).
  unfold place_characters.
  rewrite bind_eq, character_of_run, Hdudess. cbn [opt_outcome].
  rewrite bind_eq, try_opt_run, py_index_first. cbn [opt_outcome].
  rewrite bind_eq, (put_tile_run tile0 place0) by done.
  set (st1 := with_map st (put_place (tmx_data st) place0 dudess)).
  rewrite bind_eq, character_of_run, Hdude. cbn [opt_outcome].
  rewrite bind_eq, try_opt_run, py_index_second. cbn [opt_outcome].
  assert (∀ tile, tile_place (tmx_data st1) tile
                  = tile_place (tmx_data st) tile) as Hsame1
    by (intros tile; apply tile_place_put_place).
  rewrite bind_eq, (put_tile_run tile1 place1) by by rewrite Hsame1.
  change (drop 2 (tile0 :: tile1 :: tiles1)) with tiles1. cbv beta iota.
  set (st2 := with_map st1 (put_place (tmx_data st1) place1 dude)).
  assert (∀ tile, tile_place (tmx_data st2) tile
                  = tile_place (tmx_data st) tile) as Hsame2.
  { intros tile. simpl. by rewrite tile_place_put_place, Hsame1. }
  destruct (clear_tiles_run tiles1 places st2) as (tm & Hrun & _ & Hcells).
  { apply (Forall2_impl _ _ _ _ Htiles). intros tile place Hplace.
    by rewrite Hsame2. }
  exists tm. split; [by rewrite Hrun|]. intros place. rewrite Hcells.
  case_decide; [done|]. simpl.
  rewrite place_cell_put_place.
  2:{ apply (tile_place_cell _ tile1). by rewrite <- (Hsame1 tile1) in Hp1. }
  case_decide; [done|].
  rewrite place_cell_put_place by by eapply tile_place_cell. done.
Qed.

Lemma set_up_places_two_characters_witness :
  Forall2 (λ tile place,
             tile_place (tmx_data (new_SimpleTest spawn_map)) tile = Some place)
    [(1, 1, 0); (0, 0, 0); (2, 0, 0)]
    [(0, (1, 1)); (0, (0, 0)); (0, (0, 2))]%nat
  ∧ ∃ tm,
      place_characters red_team "red" [(1, 1, 0); (0, 0, 0); (2, 0, 0)]
        (new_SimpleTest spawn_map)
      = (with_map (new_SimpleTest spawn_map) tm, Done tt)
      ∧ ∀ place,
          place_cell tm place
          = if decide (place ∈ [(0, (0, 2))]%nat) then Some 0
            else if decide (place = (0, (0, 0))%nat) then Some 7
            else if decide (place = (0, (1, 1))%nat) then Some 5
            else place_cell (tmx_data (new_SimpleTest spawn_map)) place.
Proof.
  assert (Forall2 (λ tile place,
             tile_place (tmx_data (new_SimpleTest spawn_map)) tile = Some place)
            [(1, 1, 0); (0, 0, 0); (2, 0, 0)]
            [(0, (1, 1)); (0, (0, 0)); (0, (0, 2))]%nat) as Htiles
    by (repeat constructor).
  split; [assumption|].
  apply (set_up_places_two_characters red_team "red"
           [(1, 1, 0); (0, 0, 0); (2, 0, 0)] (new_SimpleTest spawn_map)
           (0, (1, 1))%nat (0, (0, 0))%nat [(0, (0, 2))%nat] 5 7);
    [vm_compute; reflexivity|vm_compute; reflexivity|assumption].
Defined.

(** X16: the character index and the set-up together: when no character
    bears the name of its team and the last tile of the "dudess" of a
    colour has a mode other than "idle", the index has no "idle" tile for
    her, and the set-up of that colour raises KeyError whenever the
    colour's spawn gid is on the map. *)
Theorem set_up_fails_after_a_later_mode tm characters color tiles st mode gid :
  (∀ entry t, entry ∈ tile_properties tm → entry.2 !! "team" = Some t →
              entry.2 !! "character" ≠ Some t) →
  build_character_index tm = Done characters →
  last_tile_of (tile_properties tm) color "dudess" = Some (mode, gid) →
  mode ≠ "idle" →
  tiles ≠ [] →
  character_gid characters color "dudess" "idle" = None
  ∧ place_characters characters color tiles st = (st, Raised KeyError).
Proof.
  intros Hitems Hbuild Hlast Hmode Htiles.
  destruct (character_loop_last_tile (tile_properties tm) ∅ Hitems)
    as (characters' & Hloop & Hgid); [done|].
  unfold build_character_index in Hbuild. rewrite Hloop in Hbuild.
  simplify_eq.
  assert (character_gid characters color "dudess" "idle" = None) as Hnone.
  { rewrite Hgid, Hlast. by rewrite decide_False. }
  split; [done|]. by apply place_characters_no_dudess.
Qed.

Lemma set_up_fails_after_a_later_mode_witness :
  (∃ characters, build_character_index idle_then_walk = Done characters
                 ∧ character_gid characters "red" "dudess" "idle" = None
                 ∧ place_characters characters "red" [(0, 0, 0)]
                     (new_SimpleTest spawn_map)
                   = (new_SimpleTest spawn_map, Raised KeyError)).
Proof.
  eexists. split; [vm_compute; reflexivity|].
  apply (set_up_fails_after_a_later_mode idle_then_walk _ "red" [(0, 0, 0)]
           (new_SimpleTest spawn_map) "walk" 6).
  - intros entry t Hin Ht.
    apply elem_of_cons in Hin as [->|Hin];
      [|apply elem_of_cons in Hin as [->|Hin];
        [|apply list_elem_of_singleton in Hin as ->]];
      vm_compute in Ht; injection Ht as <-; vm_compute; discriminate.
  - vm_compute. reflexivity.
  - vm_compute. reflexivity.
  - discriminate.
  - discriminate.
Defined.

(** X17: a colour whose spawn gid is nowhere on the map is passed over by
    the set-up: the loop does what it does on the colours that have
    locations. *)
Theorem set_up_skips_colours_without_locations characters spawns st :
  set_up characters spawns st
  = set_up characters (filter (λ job, job.2 ≠ []) spawns) st.
Proof.
  revert st. induction spawns as [|[color tiles] spawns IH]; intros st; [done|].
  rewrite filter_cons. destruct (decide _) as [Htiles|Hnone];
    cbn [set_up]; rewrite !bind_eq.
  - destruct (place_characters characters color tiles st) as [st' [[]|e]];
      [apply IH|done].
  - simpl in Hnone. apply dec_stable in Hnone. subst tiles. simpl.
    rewrite <- IH. done.
Qed.

(** * Moving a sprite and moving it back *)

Lemma set_cell_twice rows p a b :
  set_cell (set_cell rows p a) p b = set_cell rows p b.
Proof.
  destruct p as [r c]. unfold set_cell. simpl.
  destruct (rows !! r) as [row|] eqn:Hrow; simpl; [|by rewrite Hrow].
  rewrite list_lookup_insert_eq by by eapply lookup_lt_Some.
  by rewrite !list_insert_insert_eq.
Qed.

Lemma set_cell_same rows p a :
  cell_at rows p = Some a → set_cell rows p a = rows.
Proof.
  destruct p as [r c]. unfold set_cell, cell_at. simpl.
  destruct (rows !! r) as [row|] eqn:Hrow; simpl; [|done]. intros Hc.
  rewrite (list_insert_id row) by done. by apply list_insert_id.
Qed.

Lemma set_cell_swap rows p q a b :
  p ≠ q → set_cell (set_cell rows p a) q b = set_cell (set_cell rows q b) p a.
Proof.
  destruct p as [r c], q as [r' c']. intros Hpq. unfold set_cell. simpl.
  destruct (decide (r = r')) as [->|Hr].
  - destruct (rows !! r') as [row|] eqn:Hrow; simpl; [|by rewrite Hrow].
    pose proof (lookup_lt_Some _ _ _ Hrow) as Hlt.
    rewrite !list_lookup_insert_eq by done.
    rewrite !list_insert_insert_eq.
    by rewrite list_insert_insert_ne by congruence.
  - destruct (rows !! r) as [row|] eqn:Hrow;
      destruct (rows !! r') as [row'|] eqn:Hrow'; simpl;
      rewrite ?list_lookup_insert_ne by done; rewrite ?Hrow, ?Hrow'; try done.
    by apply list_insert_insert_ne.
Qed.

Lemma there_and_back rows p q gid :
  p ≠ q → cell_at rows p = Some 0 → cell_at rows q = Some gid →
  set_cell (set_cell (set_cell (set_cell rows p gid) q 0) q gid) p 0 = rows.
Proof.
  intros Hpq Hp Hq. rewrite set_cell_twice.
  rewrite (set_cell_swap rows p q) by done.
  rewrite set_cell_twice, (set_cell_same rows q) by done.
  by apply set_cell_same.
Qed.

(** The click that selects. *)
Lemma select_click_run st x y g :
  truthy (selection st) = false →
  sprite_cell st y x = Some g → g ≠ 0 →
  is_Some (terrain_at st y x) →
  on_mouse_button_up x y st = set_selection (triple x y g) st.
Proof.
  intros Hsel Hc Hnz [t Ht]. rewrite on_mouse_button_up_eq.
  pose proof Hc as Hc'.
  apply layer_cell_Some in Hc' as (layer & l & p & Hn & _). rewrite Hn.
  apply (terrain_outcome_Done (tmx_data st) st x y t eq_refl) in Ht. rewrite Ht.
  rewrite select_or_move_eq.
  apply (read_cell_outcome_Done _ _ layer) in Hc; [|done].
  by rewrite Hc, Hsel, decide_True.
Qed.

Lemma terrain_at_same_world st st' y x :
  same_world st st' → terrain_at st' y x = terrain_at st y x.
Proof.
  intros (_ & Hprops & Hcells).
  unfold terrain_at, get_tile_properties_by_gid. by rewrite Hcells, Hprops.
Qed.

Lemma selection_inv_selected st x y g :
  sprite_cell st y x = Some g → g ≠ 0 →
  selection_inv (set_selection (triple x y g) st).1.
Proof. intros Hc Hnz. right. by exists x, y, g. Qed.

Lemma terrain_at_unchanged st st' y x :
  tmx_data st' = tmx_data st → terrain_at st' y x = terrain_at st y x.
Proof. unfold terrain_at. by intros ->. Qed.

(** X18: a move can be taken back.  With nothing selected, a sprite on
    tile A, tile B free, and both tiles on a terrain other than water and
    mountains, the four clicks A, B, B, A complete and leave the whole
    store, map and selection, as it was. *)
Theorem move_there_and_back st xa ya xb yb g ta tb :
  selection st = PyNone →
  sprite_cell st ya xa = Some g → g ≠ 0 →
  sprite_cell st yb xb = Some 0 →
  terrain_at st ya xa = Some ta → ta ≠ "water" → ta ≠ "mountains" →
  terrain_at st yb xb = Some tb → tb ≠ "water" → tb ≠ "mountains" →
  handle_events [MOUSEBUTTONUP xa ya; MOUSEBUTTONUP xb yb;
                 MOUSEBUTTONUP xb yb; MOUSEBUTTONUP xa ya] st
  = (st, Done tt).
Proof.
  intros Hsel Ha Hnz Hb Hta Hwa Hma Htb Hwb Hmb.
  (* the click on A selects *)
  set (st1 := (set_selection (triple xa ya g) st).1).
  assert (on_mouse_button_up xa ya st = (st1, Done tt)) as Hrun0.
  { rewrite (select_click_run st xa ya g); [done|by rewrite Hsel|done..]. }
  (* the click on B moves *)
  destruct (move_click_run st1 xb yb xa ya g tb)
    as (ref & l & p & q & Hn & Hl & Hp & Hcp & Hq & Hcq & _ & Hrun1);
    [by apply selection_inv_selected|done..|].
  set (st2 := after_move st1 ref l p q g) in Hrun1.
  assert (p ≠ q) as Hpq by (intros ->; congruence).
  assert (is_Some (cell_at (data l) p)) as Hsp by by rewrite Hcp.
  assert (is_Some (cell_at (data l) q)) as Hsq by by rewrite Hcq.
  assert (sprite_cell st2 yb xb = Some g) as Hb2.
  { unfold st2. rewrite (sprite_cell_after_move st1 ref l) by done.
    rewrite Hp. simpl. rewrite cell_at_moved by done.
    by rewrite decide_False, decide_True. }
  assert (sprite_cell st2 ya xa = Some 0) as Ha2.
  { unfold st2. rewrite (sprite_cell_after_move st1 ref l) by done.
    rewrite Hq. simpl. rewrite cell_at_moved by done.
    by rewrite decide_True. }
  assert (same_world st1 st2) as Hworld.
  { pose proof (same_world_handle_event (MOUSEBUTTONUP xb yb) st1) as Hw.
    cbn [handle_event] in Hw. by rewrite Hrun1 in Hw. }
  (* the click on B selects *)
  set (st3 := (set_selection (triple xb yb g) st2).1).
  assert (on_mouse_button_up xb yb st2 = (st3, Done tt)) as Hrun2.
  { rewrite (select_click_run st2 xb yb g); [done..|].
    rewrite (terrain_at_same_world st1 st2) by done. by exists tb. }
  (* the click on A moves back *)
  destruct (move_click_run st3 xa ya xb yb g ta)
    as (ref' & l' & p' & q' & Hn' & Hl' & Hp' & _ & Hq' & _ & _ & Hrun3);
    [by apply selection_inv_selected|done|done| |done..|].
  { rewrite (terrain_at_unchanged st2 st3) by done.
    by rewrite (terrain_at_same_world st1 st2). }
  set (l1 := {| layer_name := layer_name l;
                data := set_cell (set_cell (data l) p g) q 0 |}).
  assert (layers (tmx_data st3) = <[ref := l1]> (layers (tmx_data st)))
    as Hlayers by done.
  assert (ref' = ref) as ->.
  { destruct Hworld as (Hnames & _).
    change (layernames (tmx_data st2) !! "Sprite Layer" = Some ref') in Hn'.
    rewrite Hnames in Hn'. congruence. }
  assert (l' = l1) as ->.
  { rewrite Hlayers, list_lookup_insert_eq in Hl' by by eapply lookup_lt_Some.
    congruence. }
  simpl in Hp', Hq'. rewrite !position_set_cell in Hp', Hq'.
  assert (p' = q) as -> by congruence.
  assert (q' = p) as -> by congruence.
  (* the four clicks together *)
  cbn [handle_events handle_event].
  rewrite bind_eq, Hrun0, bind_eq, Hrun1, bind_eq, Hrun2, bind_eq, Hrun3.
  rewrite ret_run. f_equal.
  unfold after_move. rewrite Hlayers, list_insert_insert_eq. simpl.
  rewrite there_and_back by done.
  rewrite (list_insert_id (layers (tmx_data st)) ref); [|by destruct l].
  destruct st as [[ls props] run status sel]. simpl in *. by subst sel.
Qed.

Lemma move_there_and_back_witness :
  (sprite_cell (new_SimpleTest demo_map) 0 0 = Some 5
   ∧ sprite_cell (new_SimpleTest demo_map) 0 2 = Some 0)
  ∧ handle_events [MOUSEBUTTONUP 0 0; MOUSEBUTTONUP 2 0;
                   MOUSEBUTTONUP 2 0; MOUSEBUTTONUP 0 0]
      (new_SimpleTest demo_map)
    = (new_SimpleTest demo_map, Done tt).
Proof.
  assert (sprite_cell (new_SimpleTest demo_map) 0 0 = Some 5) as Ha
    by (vm_compute; reflexivity).
  assert (sprite_cell (new_SimpleTest demo_map) 0 2 = Some 0) as Hb
    by (vm_compute; reflexivity).
  split; [by split|].
  apply (move_there_and_back (new_SimpleTest demo_map) 0 0 2 0 5
           "grass" "grass");
    [reflexivity|assumption|discriminate|assumption
    |vm_compute; reflexivity|discriminate|discriminate
    |vm_compute; reflexivity|discriminate|discriminate].
Defined.
